(** * LocalRAG: chunking engine, database manager and retrieval coordinator

    A shallow embedding of
    - [app/components/document_processor.py] (class [DocumentProcessor]),
    - [app/utils/database_manager.py]        (class [DatabaseManager]),
    - [app/components/rag_pipeline.py]       (class [RAGPipeline]),
    followed by the properties of the specification that concern them.

    Conventions.  Python [int] is [Z]; a Python [str] that is sliced and
    searched is a [list ascii] ([Py.str]); names and log fields are [string].
    A [while] loop is a fuel-indexed [Fixpoint] whose [None] means that the
    fuel ran out; an exception is a [None]/[Raise] result that the enclosing
    [try ... except] turns into the value the handler returns. *)

From Stdlib Require Import ZArith QArith Qminmax List Ascii String Lia Permutation Sorted.
From stdpp Require Import gmap strings pretty.
Import ListNotations.

Local Open Scope Z_scope.

(** ** Python built-ins used by the sources *)

Module Py.

Definition str := list ascii.

(** A literal. *)
Definition s (x : string) : str := list_ascii_of_string x.

(** [len(x)] *)
Definition len {A} (x : list A) : Z := Z.of_nat (length x).

(** Index adjustment of a slice bound ([PySlice_AdjustIndices], step 1):
    a negative bound counts from the end, then both are clamped. *)
Definition adjust (n i : Z) : Z :=
  if i <? 0 then Z.max 0 (i + n) else Z.min i n.

(** [x[lo:hi]] *)
Definition slice {A} (x : list A) (lo hi : Z) : list A :=
  let a := adjust (len x) lo in
  let b := adjust (len x) hi in
  firstn (Z.to_nat (b - a)) (skipn (Z.to_nat a) x).

(** [x[lo:]] *)
Definition slice_from {A} (x : list A) (lo : Z) : list A :=
  skipn (Z.to_nat (adjust (len x) lo)) x.

(** [x[:hi]] *)
Definition slice_to {A} (x : list A) (hi : Z) : list A :=
  firstn (Z.to_nat (adjust (len x) hi)) x.

(** [x.rfind(c)] for a one-character [c]: the highest index of [c], or -1.
    [rfind_from c x i] searches [x] whose head has index [i]. *)
Fixpoint rfind_from (c : ascii) (x : str) (i : Z) : Z :=
  match x with
  | [] => -1
  | y :: x' =>
      let r := rfind_from c x' (i + 1) in
      if 0 <=? r then r else if Ascii.eqb y c then i else -1
  end.

Definition rfind (x : str) (c : ascii) : Z := rfind_from c x 0.

(** [c.isspace()] on the 8-bit code points: TAB..CR, FS..US, SPACE,
    NEL (0x85) and NBSP (0xA0). *)
Definition isspace (c : ascii) : bool :=
  let n := nat_of_ascii c in
  ((9 <=? n) && (n <=? 13) || (28 <=? n) && (n <=? 32)
   || (n =? 133) || (n =? 160))%nat.

Fixpoint lstrip (x : str) : str :=
  match x with
  | [] => []
  | c :: x' => if isspace c then lstrip x' else x
  end.

Definition rstrip (x : str) : str := rev (lstrip (rev x)).

(** [x.strip()] *)
Definition strip (x : str) : str := rstrip (lstrip x).

(** Truth value of a sequence: non-empty. *)
Definition truthy {A} (x : list A) : bool :=
  match x with [] => false | _ => true end.

(** [x.startswith(p)] *)
Fixpoint startswith (x p : str) : bool :=
  match p, x with
  | [], _ => true
  | _ :: _, [] => false
  | a :: p', b :: x' => Ascii.eqb a b && startswith x' p'
  end.

(** [x.split(sep)] for a non-empty [sep].  [skip] counts the characters of
    a separator occurrence still to be passed over; [cur] is the piece
    being read, reversed. *)
Fixpoint split_aux (sep x : str) (skip : nat) (cur : str) : list str :=
  match x with
  | [] => [rev cur]
  | c :: x' =>
      match skip with
      | S k => split_aux sep x' k cur
      | O =>
          if startswith x sep
          then rev cur :: split_aux sep x' (Nat.pred (length sep)) []
          else split_aux sep x' 0%nat (c :: cur)
      end
  end.

Definition split (x sep : str) : list str := split_aux sep x 0%nat [].

(** [str(i)] for an [int]. *)
Definition str_of_int (i : Z) : string := pretty i.

(** A [dict] with [str] keys is the list of its items in insertion
    order.  [d[k] = v]: an existing key keeps its place. *)
Fixpoint dict_set {V} (d : list (string * V)) (k : string) (v : V)
  : list (string * V) :=
  match d with
  | [] => [(k, v)]
  | (k', v') :: d' =>
      if String.eqb k' k then (k', v) :: d' else (k', v') :: dict_set d' k v
  end.

(** [d.get(k)] *)
Fixpoint dict_get {V} (d : list (string * V)) (k : string) : option V :=
  match d with
  | [] => None
  | (k', v') :: d' => if String.eqb k' k then Some v' else dict_get d' k
  end.

(** [{**d, **e}] *)
Definition dict_update {V} (d e : list (string * V)) : list (string * V) :=
  fold_left (fun d kv => dict_set d (fst kv) (snd kv)) e d.

(** The outcome of a call that may raise; [msg] is [str(e)]. *)
Inductive res (A : Type) :=
| Ok (a : A)
| Raise (msg : string).
Arguments Ok {A} a.
Arguments Raise {A} msg.

Definition res_bind {A B} (r : res A) (f : A -> res B) : res B :=
  match r with
  | Ok a => f a
  | Raise e => Raise e
  end.

(** [x[i]] on a list, for [i >= 0]. *)
Definition index {A} (x : list A) (i : nat) : res A :=
  match nth_error x i with
  | Some a => Ok a
  | None => Raise "list index out of range"
  end.

End Py.

(** ** [document_processor.py]: the chunking engine *)

Module DocumentProcessor.
Import Py.

(** [self.chunk_size], [self.chunk_overlap] *)
Record t := mk { chunk_size : Z; chunk_overlap : Z }.

(** What one pass through the body of the [while] loop of
    [_chunk_general_text] does with the window that begins at [start]. *)
Inductive pass :=
| Tail (chunk : str)                 (* [chunks.append(text[start:]); break] *)
| Cut (chunk : str) (start' : Z).    (* [chunks.append(text[start:end]); start = end - overlap] *)

(** The value of [best_break] for the window at [start]. *)
Definition best_break (self : t) (text : str) (start : Z) : Z :=
  let chunk := slice text start (start + chunk_size self) in
  let last_period := rfind chunk "."%char in
  let last_newline := rfind chunk "010"%char in
  Z.max last_period last_newline.

(** The value of [end] when the window at [start] is appended. *)
Definition window_end (self : t) (text : str) (start : Z) : Z :=
  let end_ := start + chunk_size self in
  if best_break self text start >? start + chunk_size self / 2
  then start + best_break self text start + 1
  else end_.

Definition loop_body (self : t) (text : str) (start : Z) : pass :=
  let end_ := start + chunk_size self in
  if end_ >=? len text then Tail (slice_from text start)
  else
    let end_ := window_end self text start in
    Cut (slice text start end_) (end_ - chunk_overlap self).

(** [while start < len(text): ...]; [None]: the fuel is used up. *)
Fixpoint chunk_loop (fuel : nat) (self : t) (text : str)
         (start : Z) (chunks : list str) : option (list str) :=
  match fuel with
  | O => None
  | S fuel' =>
      if start <? len text then
        match loop_body self text start with
        | Tail c => Some (chunks ++ [c])
        | Cut c start' => chunk_loop fuel' self text start' (chunks ++ [c])
        end
      else Some chunks
  end.

(** [[chunk.strip() for chunk in chunks if chunk.strip()]] *)
Definition strip_nonblank (chunks : list str) : list str :=
  map strip (List.filter (fun c => truthy (strip c)) chunks).

Definition _chunk_general_text (fuel : nat) (self : t) (text : str)
  : option (list str) :=
  if len text <=? chunk_size self then Some [text]
  else
    match chunk_loop fuel self text 0 [] with
    | Some chunks => Some (strip_nonblank chunks)
    | None => None
    end.


(** *** Legal and letter modes

    The regular-expression engine ([re]) is a library outside the
    repository: the three calls the chunkers make are taken as
    parameters.  Everything around them is the code of the chunkers. *)

Section Modes.

(** [re.split(f'({combined_pattern})', text, flags=re.IGNORECASE)] *)
Variable re_split_legal : str -> list str.
(** [re.match(combined_pattern, section, re.IGNORECASE)], as a truth value *)
Variable re_match_legal : str -> bool.
(** [re.split(r'\n\s*\d+\.\s+', page)] *)
Variable re_split_paragraphs : str -> list str.

(** One iteration of [for section in sections] of [_chunk_legal_text]
    on the pair [(chunks, current_chunk)]. *)
Definition legal_step (fuel : nat) (self : t)
           (st : list str * str) (section : str) : option (list str * str) :=
  let '(chunks, current_chunk) := st in
  if re_match_legal section then
    let chunks :=
      if truthy current_chunk then chunks ++ [strip current_chunk] else chunks in
    Some (chunks, section ++ s " ")
  else
    let current_chunk := current_chunk ++ section in
    if len current_chunk >? chunk_size self * 2 then
      match _chunk_general_text fuel self current_chunk with
      | None => None
      | Some sub_chunks =>
          Some (chunks ++ slice_to sub_chunks (-1), List.last sub_chunks [])
      end
    else Some (chunks, current_chunk).

Fixpoint legal_loop (fuel : nat) (self : t) (sections : list str)
         (st : list str * str) : option (list str * str) :=
  match sections with
  | [] => Some st
  | section :: rest =>
      match legal_step fuel self st section with
      | None => None
      | Some st' => legal_loop fuel self rest st'
      end
  end.

Definition _chunk_legal_text (fuel : nat) (self : t) (text : str)
  : option (list str) :=
  match legal_loop fuel self (re_split_legal text) ([], []) with
  | None => None
  | Some (chunks, current_chunk) =>
      let chunks :=
        if truthy current_chunk then chunks ++ [strip current_chunk] else chunks in
      Some (List.filter (fun chunk => truthy (strip chunk)) chunks)
  end.

(** [for paragraph in paragraphs] of [_chunk_letter_text] *)
Fixpoint letter_paragraphs (fuel : nat) (self : t) (paragraphs : list str)
         (chunks : list str) : option (list str) :=
  match paragraphs with
  | [] => Some chunks
  | paragraph :: rest =>
      let paragraph := strip paragraph in
      if negb (truthy paragraph) then letter_paragraphs fuel self rest chunks
      else if len paragraph >? chunk_size self then
        match _chunk_general_text fuel self paragraph with
        | None => None
        | Some sub_chunks => letter_paragraphs fuel self rest (chunks ++ sub_chunks)
        end
      else letter_paragraphs fuel self rest (chunks ++ [paragraph])
  end.

(** [for page in pages] of [_chunk_letter_text] *)
Fixpoint letter_pages (fuel : nat) (self : t) (pages : list str)
         (chunks : list str) : option (list str) :=
  match pages with
  | [] => Some chunks
  | page :: rest =>
      if negb (truthy (strip page)) then letter_pages fuel self rest chunks
      else
        match letter_paragraphs fuel self (re_split_paragraphs page) chunks with
        | None => None
        | Some chunks' => letter_pages fuel self rest chunks'
        end
  end.

Definition _chunk_letter_text (fuel : nat) (self : t) (text : str)
  : option (list str) :=
  letter_pages fuel self (split text (s "--- Page ")) [].

Definition _apply_chunking_strategy (fuel : nat) (self : t)
           (text : str) (chunking_mode : string) : option (list str) :=
  if String.eqb chunking_mode "statute" then _chunk_legal_text fuel self text
  else if String.eqb chunking_mode "letter" then _chunk_letter_text fuel self text
  else _chunk_general_text fuel self text.

(** *** Ingestion: documents and their ids *)

(** [hashlib.md5(b).hexdigest()], a library function, on the text whose
    UTF-8 encoding is hashed. *)
Variable md5_hexdigest : string -> string.

(** A [pathlib.Path]: the directory part and the final component
    ([file_path.name]). *)
Record Path := { parent : string; name : string }.

Inductive value :=
| VStr (x : string)
| VText (x : str)
| VInt (x : Z).

(** A metadata [dict]. *)
Definition dict := list (string * value).

Record Document := { id : string; content : str; metadata : dict }.

(** [source = f"{file_path.name}_{suffix}"], hashed.  [suffix] is the
    text that the f-string puts for it. *)
Definition _generate_document_id (file_path : Path) (suffix : string) : string :=
  let source := (name file_path ++ "_" ++ suffix)%string in
  md5_hexdigest source.

(** [for i, chunk in enumerate(chunks)] of [_process_txt]: [i] is the
    index of the first of [rest]; [clock k] is what the [k]-th reading
    of [datetime.now().isoformat()] returns. *)
Fixpoint txt_documents (file_path : Path) (total : Z) (extra : dict)
         (clock : nat -> string) (i : nat) (rest : list str) : list Document :=
  match rest with
  | [] => []
  | chunk :: rest' =>
      let doc_id := _generate_document_id file_path (str_of_int (Z.of_nat i)) in
      let doc_metadata :=
        dict_update
          [("source_file", VStr (name file_path)); ("source_type", VStr "txt");
           ("chunk_index", VInt (Z.of_nat i)); ("total_chunks", VInt total);
           ("processed_at", VStr (clock i))]%string
          extra in
      {| id := doc_id; content := chunk; metadata := doc_metadata |}
        :: txt_documents file_path total extra clock (S i) rest'
  end.

(** [_process_txt].  [read] is what [open(...).read()] gives, [None] when
    it raises (the handler returns no documents); [extra] is
    [metadata or {}].  The result is [None] only when the chunker does
    not come back within [fuel]. *)
Definition _process_txt (fuel : nat) (self : t) (file_path : Path)
           (read : option str) (chunking_mode : string) (extra : dict)
           (clock : nat -> string) : option (list Document) :=
  match read with
  | None => Some []
  | Some full_text =>
      match _apply_chunking_strategy fuel self full_text chunking_mode with
      | None => None
      | Some chunks =>
          Some (txt_documents file_path (len chunks) extra clock 0%nat chunks)
      end
  end.

(** A [pandas.DataFrame]: the column labels and, per row, its index
    label and one cell per column ([None] is NaN). *)
Record DataFrame := { columns : list string; rows : list (Z * list (option str)) }.

(** [str(cell)] *)
Definition str_of_cell (c : option str) : str :=
  match c with Some x => x | None => s "nan" end.

(** The metadata entries for the columns after the content column:
    [str(row[col]) if not pd.isna(row[col]) else ''] under [prefix + col]. *)
Fixpoint column_metadata (prefix : string) (cols : list string)
         (cells : list (option str)) (d : dict) : dict :=
  match cols, cells with
  | col :: cols', cell :: cells' =>
      column_metadata prefix cols' cells'
        (dict_set d (prefix ++ col)%string
                  (VText (match cell with Some x => x | None => [] end)))
  | _, _ => d
  end.

(** The rows loop shared by [_process_csv] (default column mapping:
    the first column is the content) and [_process_excel].  [suffix]
    makes the id suffix from the row's index label; [base] gives the
    metadata that precede [processed_at]. *)
Fixpoint row_documents (file_path : Path) (suffix : Z -> string)
         (base : Z -> dict) (prefix : string) (extra : dict)
         (clock : nat -> string) (k : nat) (cols : list string)
         (rs : list (Z * list (option str))) : list Document :=
  match rs with
  | [] => []
  | (index, cells) :: rs' =>
      let content := str_of_cell (hd None cells) in
      if negb (truthy (strip content))
      then row_documents file_path suffix base prefix extra clock k cols rs'
      else
        let doc_id := _generate_document_id file_path (suffix index) in
        let row_metadata :=
          dict_update (base index ++ [("processed_at", VStr (clock k))]%string) extra in
        let row_metadata :=
          column_metadata prefix (tl cols) (tl cells) row_metadata in
        {| id := doc_id; content := content; metadata := row_metadata |}
          :: row_documents file_path suffix base prefix extra clock (S k) cols rs'
  end.

(** [_process_csv] as [process_file] calls it (no [column_mapping]).
    [df] is what [pd.read_csv] gives, [None] when it raises. *)
Definition _process_csv (file_path : Path) (df : option DataFrame)
           (extra : dict) (clock : nat -> string) : list Document :=
  match df with
  | None => []
  | Some df =>
      match columns df with
      | [] => []
      | content_col :: _ =>
          if String.eqb content_col "" then []
          else
            row_documents file_path str_of_int
              (fun index =>
                 [("source_file", VStr (name file_path)); ("source_type", VStr "csv");
                  ("row_number", VInt (index + 1))]%string)
              "csv_" extra clock 0%nat (columns df) (rows df)
      end
  end.

(** [for sheet_name in xl_file.sheet_names] of [_process_excel]; the
    documents of the earlier sheets have used [k] clock readings. *)
Fixpoint excel_sheets (file_path : Path) (extra : dict) (clock : nat -> string)
         (k : nat) (sheets : list (string * DataFrame)) : list Document :=
  match sheets with
  | [] => []
  | (sheet_name, df) :: sheets' =>
      match columns df with
      | [] => excel_sheets file_path extra clock k sheets'
      | _ :: _ =>
          let docs :=
            row_documents file_path
              (fun index => (sheet_name ++ "_" ++ str_of_int index)%string)
              (fun index =>
                 [("source_file", VStr (name file_path)); ("source_type", VStr "excel");
                  ("sheet_name", VStr sheet_name); ("row_number", VInt (index + 1))]%string)
              "excel_" extra clock k (columns df) (rows df) in
          docs ++ excel_sheets file_path extra clock (k + length docs)%nat sheets'
      end
  end.

(** [_process_excel]; [None] when reading the workbook raises. *)
Definition _process_excel (file_path : Path)
           (sheets : option (list (string * DataFrame)))
           (extra : dict) (clock : nat -> string) : list Document :=
  match sheets with
  | None => []
  | Some sheets => excel_sheets file_path extra clock 0%nat sheets
  end.

End Modes.

End DocumentProcessor.

(** ** [database_manager.py]: databases, their cache and the audit log

    The state is what the methods read and write: the cache
    [self.active_databases], the directories under [databases_dir], the rows
    of [audit.csv].  ChromaDB and the file system are the environment: a
    container records what opening and removing it will do, a collection
    what a query on it returns.  Calls of [logger] are not represented. *)

Module DatabaseManager.
Import Py.

Inductive Action :=
| CREATE_DATABASE | LOAD_DATABASE | DELETE_DATABASE | ADD_DOCUMENTS | QUERY_DATABASE.

(** One row of [audit.csv]. *)
Record AuditRecord := {
  timestamp : string;
  action : Action;
  database_name : string;
  user : string;
  details : string
}.

Definition Meta := list (string * string).

(** What [collection.query] returns: the three lists of lists under
    ['documents'], ['metadatas'] and ['distances']. *)
Record QueryResult := {
  documents : list (list str);
  metadatas : list (list Meta);
  distances : list (list Q)
}.

(** A ChromaDB collection: [query query_text n_results] is the outcome of
    [collection.query(query_texts=[query_text], n_results=n_results)]. *)
Record Collection := { query : str -> Z -> res QueryResult }.

(** A directory [databases_dir / name]. *)
Record Container := {
  chroma : res Collection;          (* [PersistentClient(...)] then [get_collection("documents")] *)
  metadata_enc : option Meta;       (* [_load_database_metadata(name)] *)
  removable : bool                  (* [shutil.rmtree(db_path)] does not raise *)
}.

(** An item of [self.active_databases]. *)
Record Handle := { collection : Collection; metadata : option Meta }.

(** One result of [query_databases]. *)
Record Hit := {
  content : str;
  hit_metadata : Meta;
  distance : option Q;              (* [None] is Python's [None] *)
  source_database : string
}.

(** The writes to the file system, in the order in which they happen. *)
Inductive Effect :=
| Rmtree (name : string)
| Append (r : AuditRecord).

Record t := {
  active_databases : gmap string Handle;
  disk : gmap string Container;
  audit : list AuditRecord;
  audit_writable : bool;            (* [open(self.audit_file, 'a')] does not raise *)
  now : string;                     (* [datetime.now().isoformat()] *)
  effects : list Effect
}.

(** Computations on the state that may raise. *)
Definition M (A : Type) := t -> res A * t.

Definition ret {A} (a : A) : M A := fun st => (Ok a, st).

Definition bind {A B} (m : M A) (f : A -> M B) : M B :=
  fun st =>
    match m st with
    | (Ok a, st') => f a st'
    | (Raise e, st') => (Raise e, st')
    end.

Definition lift {A} (r : res A) : M A := fun st => (r, st).

(** [try: m  except Exception as e: h e] *)
Definition try_except {A} (m : M A) (h : string -> M A) : M A :=
  fun st =>
    match m st with
    | (Ok a, st') => (Ok a, st')
    | (Raise e, st') => h e st'
    end.

Notation "'let!' x ':=' m 'in' k" := (bind m (fun x => k))
  (at level 10, x name, m at level 100, k at level 200).

Definition set_active (a : gmap string Handle) (st : t) : t :=
  {| active_databases := a; disk := disk st; audit := audit st;
     audit_writable := audit_writable st; now := now st; effects := effects st |}.

Definition _log_audit (action_ : Action) (database_name_ : string)
           (details_ : string) : M unit :=
  fun st =>
    if audit_writable st then
      let r := {| timestamp := now st; action := action_;
                  database_name := database_name_; user := "local_user";
                  details := details_ |} in
      (Ok tt,
       {| active_databases := active_databases st; disk := disk st;
          audit := audit st ++ [r]; audit_writable := audit_writable st;
          now := now st; effects := effects st ++ [Append r] |})
    else (Raise "cannot open audit.csv", st).

Definition load_database (name : string) : M (option Handle) :=
  try_except
    (fun st =>
       match active_databases st !! name with
       | Some h => (Ok (Some h), st)
       | None =>
           match disk st !! name with
           | None => (Ok None, st)
           | Some c =>
               match chroma c with
               | Raise e => (Raise e, st)
               | Ok coll =>
                   let h := {| collection := coll; metadata := metadata_enc c |} in
                   (let! _ := _log_audit LOAD_DATABASE name "" in ret (Some h))
                     (set_active (<[name := h]> (active_databases st)) st)
               end
           end
       end)
    (fun _ => ret None).

(** [shutil.rmtree(db_path)] *)
Definition rmtree (name : string) : M unit :=
  fun st =>
    match disk st !! name with
    | None => (Raise "No such file or directory", st)
    | Some c =>
        if removable c then
          (Ok tt,
           {| active_databases := active_databases st; disk := delete name (disk st);
              audit := audit st; audit_writable := audit_writable st;
              now := now st; effects := effects st ++ [Rmtree name] |})
        else (Raise "rmtree failed", st)
    end.

Definition delete_database (name : string) : M bool :=
  try_except
    (let! _ := (fun st =>
             match active_databases st !! name with
             | Some _ => (Ok tt, set_active (delete name (active_databases st)) st)
             | None => (Ok tt, st)
             end) in
     let! _ := (fun st =>
             match disk st !! name with
             | Some _ => rmtree name st
             | None => (Ok tt, st)
             end) in
     let! _ := _log_audit DELETE_DATABASE name "" in
     ret true)
    (fun _ => ret false).

(** [for i, doc in enumerate(query_results['documents'][0])] of
    [query_databases]; [i] is the index of the first of [docs]. *)
Fixpoint format_loop (db_name : string) (query_results : QueryResult)
         (i : nat) (docs : list str) : res (list Hit) :=
  match docs with
  | [] => Ok []
  | doc :: docs' =>
      res_bind (index (metadatas query_results) 0) (fun m0 =>
      res_bind (if truthy m0 then index m0 i else Ok []) (fun md =>
      res_bind (if truthy (distances query_results)
                then res_bind (index (distances query_results) 0)
                              (fun d0 => res_bind (index d0 i) (fun d => Ok (Some d)))
                else Ok None) (fun dist =>
      res_bind (format_loop db_name query_results (S i) docs') (fun rest =>
      Ok ({| content := doc; hit_metadata := md; distance := dist;
             source_database := db_name |} :: rest)))))
  end.

Definition format_results (db_name : string) (query_results : QueryResult)
  : res (list Hit) :=
  match documents query_results with
  | docs0 :: _ =>
      if truthy docs0 then format_loop db_name query_results 0 docs0 else Ok []
  | [] => Ok []
  end.

Definition results := list (string * list Hit).

(** The body of [for db_name in database_names].  When the handler runs,
    [results] holds at most a new value under [db_name], so writing [[]]
    under [db_name] into the dictionary as it was before the [try] gives
    the same dictionary. *)
Definition query_one (query_ : str) (n_results : Z) (rs : results)
           (db_name : string) : M results :=
  try_except
    (let! db := load_database db_name in
     match db with
     | None => ret rs
     | Some db =>
         let! query_results := lift (query (collection db) query_ n_results) in
         let! formatted_results := lift (format_results db_name query_results) in
         let! _ := _log_audit QUERY_DATABASE db_name
                ("Query: " ++ string_of_list_ascii (slice_to query_ 100) ++ "...") in
         ret (dict_set rs db_name formatted_results)
     end)
    (fun _ => ret (dict_set rs db_name [])).

Fixpoint query_loop (query_ : str) (n_results : Z) (database_names : list string)
         (rs : results) : M results :=
  match database_names with
  | [] => ret rs
  | db_name :: rest =>
      let! rs' := query_one query_ n_results rs db_name in
      query_loop query_ n_results rest rs'
  end.

Definition query_databases (query_ : str) (database_names : list string)
           (n_results : Z) : M results :=
  query_loop query_ n_results database_names [].

End DatabaseManager.

(** ** [rag_pipeline.py]: the retrieval coordinator

    Distances and confidences are Python floats; they are represented by
    the rationals they denote ([0.2] is [1/5]), without NaN and without
    rounding.  [progress_callback] is [None]. *)

Module RAGPipeline.
Import Py.
Import DatabaseManager (Hit, Meta, content, hit_metadata, distance, source_database).

Local Open Scope Q_scope.

(** An item of [config['models']]. *)
Record Model := { name : string; prompt_template : str; system_message : str }.

(** [run prompt] is [response.get('replies')] of
    [self.current_generator.run(prompt=prompt)]. *)
Record Generator := { run : str -> res (list str) }.

Record t := {
  max_chunks_per_query : Z;        (* [config['database_settings']['max_chunks_per_query']] *)
  current_model : option Model;
  current_generator : option Generator;
  database_manager : option DatabaseManager.t
}.

Record Source := { database : string; content_preview : str; source_metadata : Meta }.

(** The dictionary the queries return; [databases_queried] is [None] when
    the key is absent. *)
Record Answer := {
  answer : str;
  sources : list Source;
  confidence : Q;
  model_used : string;
  databases_queried : option (list string)
}.

Definition set_manager (dm : DatabaseManager.t) (self : t) : t :=
  {| max_chunks_per_query := max_chunks_per_query self;
     current_model := current_model self;
     current_generator := current_generator self;
     database_manager := Some dm |}.

Definition nl : str := ["010"%char].

(** [sep.join(parts)] *)
Fixpoint join (sep : str) (parts : list str) : str :=
  match parts with
  | [] => []
  | [p] => p
  | p :: rest => p ++ sep ++ join sep rest
  end.

(** [doc['content'][:200] + "..." if len(doc['content']) > 200 else doc['content']] *)
Definition preview (c : str) : str :=
  if (len c >? 200)%Z then slice_to c 200 ++ s "..." else c.

(** The [source_info] of a document; the key ['source_database'] is
    always there, so the default of [doc.get] is not used. *)
Definition source_info (doc : Hit) : Source :=
  {| database := source_database doc;
     content_preview := preview (content doc);
     source_metadata := hit_metadata doc |}.

(** [min(len(documents) * 0.2, 1.0)] *)
Definition single_confidence (documents : list Hit) : Q :=
  Qmin (inject_Z (len documents) * (2 # 10)) 1.

(** [min(len(top_documents) * 0.15 + len(database_names) * 0.1, 1.0)] *)
Definition multi_confidence (top_documents : list Hit) (database_names : list string) : Q :=
  Qmin (inject_Z (len top_documents) * (15 # 100) + inject_Z (len database_names) * (1 # 10)) 1.

(** *** [all_documents.sort(key=lambda doc: doc.get('distance', 1.0))]

    [list.sort] computes the keys, then rearranges by comparing keys with
    [<]; it is stable.  With fewer than two items nothing is compared;
    otherwise every key is compared at least once, and a comparison with
    [None] raises [TypeError].  The stable rearrangement in
    non-decreasing key order is unique: insertion from the right computes
    it. *)

Fixpoint keyed (docs : list Hit) : option (list (Q * Hit)) :=
  match docs with
  | [] => Some []
  | doc :: docs' =>
      match distance doc, keyed docs' with
      | Some d, Some ks => Some ((d, doc) :: ks)
      | _, _ => None
      end
  end.

(** [a < b] on keys *)
Definition key_lt (a b : Q) : bool := negb (Qle_bool b a).

Fixpoint insert (x : Q * Hit) (l : list (Q * Hit)) : list (Q * Hit) :=
  match l with
  | [] => [x]
  | y :: l' => if key_lt (fst y) (fst x) then y :: insert x l' else x :: l
  end.

Definition sort_keyed (l : list (Q * Hit)) : list (Q * Hit) := fold_right insert [] l.

Definition sort_by_distance (docs : list Hit) : res (list Hit) :=
  match docs with
  | [] | [_] => Ok docs
  | _ =>
      match keyed docs with
      | Some ks => Ok (map snd (sort_keyed ks))
      | None => Raise "'<' not supported between instances of 'NoneType' and 'float'"
      end
  end.

(** [for db_name, results in all_results.items(): all_documents.extend(results)] *)
Definition collect (all_results : DatabaseManager.results) : list Hit :=
  concat (map snd all_results).

(** The sort followed by [top_documents = all_documents[:max_chunks]]. *)
Definition rerank (max_chunks : Z) (all_documents : list Hit) : res (list Hit) :=
  res_bind (sort_by_distance all_documents) (fun sorted => Ok (slice_to sorted max_chunks)).

Section Queries.

(** [template.format(system_message=a, user_message=b)] *)
Variable str_format : str -> str -> str -> res str.

Definition the_model (self : t) : res Model :=
  match current_model self with
  | Some m => Ok m
  | None => Raise "'NoneType' object is not subscriptable"
  end.

Definition the_generator (self : t) : res Generator :=
  match current_generator self with
  | Some g => Ok g
  | None => Raise "'NoneType' object has no attribute 'run'"
  end.

(** [response['replies'][0] if response.get('replies') else 'No response generated.'] *)
Definition first_reply (replies : list str) : str :=
  match replies with
  | r :: _ => r
  | [] => s "No response generated."
  end.

(** [self.current_model['name'] if self.current_model else 'None'] *)
Definition model_used_or_none (self : t) : string :=
  match current_model self with
  | Some m => name m
  | None => "None"%string
  end.

(** The part of [query_single_database] after [query_databases]. *)
Definition single_body (self : t) (query_ : str) (database_name : string)
           (db_results : DatabaseManager.results) : res Answer :=
  match dict_get db_results database_name with
  | None | Some [] =>
      res_bind (the_model self) (fun m =>
      Ok {| answer := s "No relevant documents found in the database.";
            sources := []; confidence := 0; model_used := name m;
            databases_queried := None |})
  | Some documents =>
      res_bind (the_model self) (fun m =>
      let context := join nl (map content documents) in
      res_bind (str_format (prompt_template m)
                  (system_message m ++ nl ++ nl ++ s "Context:" ++ nl ++ context)
                  query_) (fun prompt =>
      res_bind (the_generator self) (fun g =>
      res_bind (run g prompt) (fun replies =>
      Ok {| answer := first_reply replies;
            sources := map source_info documents;
            confidence := single_confidence documents;
            model_used := name m;
            databases_queried := Some [database_name] |}))))
  end.

Definition query_single_database (self : t) (query_ : str) (database_name : string)
  : Answer * t :=
  let handler (e : string) (self' : t) :=
    ({| answer := s ("Error occurred during query: " ++ e);
        sources := []; confidence := 0;
        model_used := model_used_or_none self';
        databases_queried := None |}, self') in
  match database_manager self with
  | None => handler "'NoneType' object has no attribute 'query_databases'" self
  | Some dm =>
      match DatabaseManager.query_databases query_ [database_name]
              (max_chunks_per_query self) dm with
      | (Raise e, dm') => handler e (set_manager dm' self)
      | (Ok db_results, dm') =>
          let self' := set_manager dm' self in
          match single_body self' query_ database_name db_results with
          | Ok a => (a, self')
          | Raise e => handler e self'
          end
      end
  end.

(** [f"Source: {db_name}\n{doc['content']}"] *)
Definition context_part (doc : Hit) : str :=
  s ("Source: " ++ source_database doc) ++ nl ++ content doc.

(** The part of [query_multiple_databases] after [query_databases]. *)
Definition multiple_body (self : t) (query_ : str) (database_names : list string)
           (all_results : DatabaseManager.results) : res Answer :=
  let all_documents := collect all_results in
  if negb (truthy all_documents) then
    res_bind (the_model self) (fun m =>
    Ok {| answer := s "No relevant documents found in any of the selected databases.";
          sources := []; confidence := 0; model_used := name m;
          databases_queried := Some database_names |})
  else
    res_bind (rerank (max_chunks_per_query self) all_documents) (fun top_documents =>
    res_bind (the_model self) (fun m =>
    let context := join (nl ++ nl) (map context_part top_documents) in
    res_bind (str_format (prompt_template m)
                (system_message m ++ nl ++ nl
                   ++ s "Context from multiple sources:" ++ nl ++ context)
                query_) (fun prompt =>
    res_bind (the_generator self) (fun g =>
    res_bind (run g prompt) (fun replies =>
    Ok {| answer := first_reply replies;
          sources := map source_info top_documents;
          confidence := multi_confidence top_documents database_names;
          model_used := name m;
          databases_queried := Some database_names |}))))).

Definition query_multiple_databases (self : t) (query_ : str)
           (database_names : list string) : Answer * t :=
  let handler (e : string) (self' : t) :=
    ({| answer := s ("Error occurred during multi-database query: " ++ e);
        sources := []; confidence := 0;
        model_used := model_used_or_none self';
        databases_queried := Some database_names |}, self') in
  match database_manager self with
  | None => handler "'NoneType' object has no attribute 'query_databases'" self
  | Some dm =>
      match DatabaseManager.query_databases query_ database_names
              (max_chunks_per_query self) dm with
      | (Raise e, dm') => handler e (set_manager dm' self)
      | (Ok all_results, dm') =>
          let self' := set_manager dm' self in
          match multiple_body self' query_ database_names all_results with
          | Ok a => (a, self')
          | Raise e => handler e self'
          end
      end
  end.

End Queries.

End RAGPipeline.

(** ** Notions of the specification *)

Module Spec.
Import Py.

(** Chunks "concatenated with the overlap removed": every chunk after the
    first loses its first [overlap] characters. *)
Definition remove_overlap (overlap : Z) (chunks : list str) : str :=
  match chunks with
  | [] => []
  | c :: rest => c ++ concat (map (fun w => slice_from w overlap) rest)
  end.

(** A configuration the specification calls valid. *)
Definition valid (self : DocumentProcessor.t) : Prop :=
  0 <= DocumentProcessor.chunk_overlap self
  /\ DocumentProcessor.chunk_overlap self < DocumentProcessor.chunk_size self.

(** No window that the sentence break shortens is as short as the
    overlap: the overlap is at most half the chunk size plus one. *)
Definition moderate_overlap (self : DocumentProcessor.t) : Prop :=
  DocumentProcessor.chunk_overlap self <= DocumentProcessor.chunk_size self / 2 + 1.

(** All chunks but the last are at most [n] long. *)
Definition all_but_last_within (n : Z) (chunks : list str) : Prop :=
  Forall (fun c => len c <= n) (removelast chunks).

(** The windows that general chunking cuts, before it trims them. *)
Definition general_windows (fuel : nat) (self : DocumentProcessor.t) (text : str)
  : option (list str) :=
  if len text <=? DocumentProcessor.chunk_size self then Some [text]
  else DocumentProcessor.chunk_loop fuel self text 0 [].

(** A chunk as the contract of the chunker wants it. *)
Definition trimmed_nonempty (c : str) : Prop := strip c = c /\ c <> [].

(** A text of 112 characters with its only full stop at index 51. *)
Definition stuck_text : str := repeat "a"%char 51 ++ s "." ++ repeat "a"%char 60.

(** "The audit record is appended before the container is removed": in a
    sequence of file-system writes, a [DELETE_DATABASE] record for [name]
    comes before every removal of [name]. *)
Definition audit_before_removal (name : string)
           (effects : list DatabaseManager.Effect) : Prop :=
  forall pre post,
    effects = pre ++ DatabaseManager.Rmtree name :: post ->
    exists r, In (DatabaseManager.Append r) pre
              /\ DatabaseManager.action r = DatabaseManager.DELETE_DATABASE
              /\ DatabaseManager.database_name r = name.

(** The [DELETE_DATABASE] row that [delete_database name] writes. *)
Definition delete_record (st : DatabaseManager.t) (name : string)
  : DatabaseManager.AuditRecord :=
  {| DatabaseManager.timestamp := DatabaseManager.now st;
     DatabaseManager.action := DatabaseManager.DELETE_DATABASE;
     DatabaseManager.database_name := name;
     DatabaseManager.user := "local_user"%string;
     DatabaseManager.details := ""%string |}.

(** A database that [load_database] cannot open: it is not in the cache,
    and its directory is missing or ChromaDB raises on it. *)
Definition cannot_open (st : DatabaseManager.t) (name : string) : Prop :=
  DatabaseManager.active_databases st !! name = None
  /\ match DatabaseManager.disk st !! name with
     | None => True
     | Some c => exists e, DatabaseManager.chroma c = Raise e
     end.

(** Order of two hits by their distances; a hit without a distance is in
    no order with another. *)
Definition distance_le (a b : DatabaseManager.Hit) : Prop :=
  match DatabaseManager.distance a, DatabaseManager.distance b with
  | Some x, Some y => (x <= y)%Q
  | _, _ => False
  end.

(** The hit has the distance [d]. *)
Definition has_distance (d : Q) (h : DatabaseManager.Hit) : bool :=
  match DatabaseManager.distance h with
  | Some x => Qeq_bool x d
  | None => false
  end.

(** [sorted] is [docs] put in non-decreasing order of distance by a
    stable sort: the same hits, in order, and the hits of one distance in
    the order they had. *)
Definition stable_sort_of (sorted docs : list DatabaseManager.Hit) : Prop :=
  Permutation sorted docs
  /\ StronglySorted distance_le sorted
  /\ forall d, List.filter (has_distance d) sorted = List.filter (has_distance d) docs.

(** Order and equality of the keys of the hits that the sort has
    decorated with their keys. *)
Definition kle (a b : Q * DatabaseManager.Hit) : Prop := (fst a <= fst b)%Q.
Definition same_key (d : Q) (p : Q * DatabaseManager.Hit) : bool := Qeq_bool (fst p) d.

(** A decorated hit carries its own distance as key. *)
Definition decorated (p : Q * DatabaseManager.Hit) : Prop :=
  DatabaseManager.distance (snd p) = Some (fst p).


(** The id that goes with the suffix text [suffix] in a file called
    [n], for the hash function [md5]. *)
Definition id_of (md5 : string -> string) (n suffix : string) : string :=
  md5 (n ++ "_" ++ suffix)%string.


(** A hit of the database ["Alpha"]. *)
Definition alpha_hit : DatabaseManager.Hit :=
  {| DatabaseManager.content := s "alpha text";
     DatabaseManager.hit_metadata := [];
     DatabaseManager.distance := Some (1 # 2);
     DatabaseManager.source_database := "Alpha"%string |}.


(** A pipeline over [dm] with a model, a generator that echoes the prompt
    and [max_chunks_per_query = 5]. *)
Definition echo_pipeline (dm : DatabaseManager.t) : RAGPipeline.t :=
  {| RAGPipeline.max_chunks_per_query := 5;
     RAGPipeline.current_model :=
       Some {| RAGPipeline.name := "echo"%string;
               RAGPipeline.prompt_template := [];
               RAGPipeline.system_message := [] |};
     RAGPipeline.current_generator := Some {| RAGPipeline.run := fun p => Ok [p] |};
     RAGPipeline.database_manager := Some dm |}.

(** What a call leaves alone, as far as opening [name] goes: the cache
    entry of [name] and the directories. *)
Definition frame (name : string) (st st' : DatabaseManager.t) : Prop :=
  DatabaseManager.active_databases st' !! name = DatabaseManager.active_databases st !! name
  /\ DatabaseManager.disk st' = DatabaseManager.disk st.

(** A collection whose every query returns the one document [doc] at
    distance [d]. *)
Definition one_hit_collection (doc : str) (d : Q) : DatabaseManager.Collection :=
  {| DatabaseManager.query := fun _ _ =>
       Ok {| DatabaseManager.documents := [[doc]];
             DatabaseManager.metadatas := [[[]]];
             DatabaseManager.distances := [[d]] |} |}.

(** A manager with the single database ["Alpha"] on disk, nothing opened
    and an empty audit log. *)
Definition alpha_only : DatabaseManager.t :=
  {| DatabaseManager.active_databases := ∅;
     DatabaseManager.disk :=
       {[ "Alpha"%string :=
            {| DatabaseManager.chroma := Ok (one_hit_collection (s "alpha text") (1 # 2));
               DatabaseManager.metadata_enc := None;
               DatabaseManager.removable := true |} ]};
     DatabaseManager.audit := [];
     DatabaseManager.audit_writable := true;
     DatabaseManager.now := "2024-01-01T00:00:00"%string;
     DatabaseManager.effects := [] |}.

End Spec.

(** ** [document_processor.py]: files

    [process_file], the two extractors that [DocumentProcessor] does not
    share with the tables, and [validate_file].  What PyPDF2, python-docx,
    pandas and the file system give for the file is an input. *)

Module FileProcessing.
Import Py DocumentProcessor.

(** [c.lower()] on the 8-bit code points: [A-Z] and the Latin-1 capitals. *)
Definition lower_char (c : ascii) : ascii :=
  let n := nat_of_ascii c in
  if ((65 <=? n) && (n <=? 90)
      || (192 <=? n) && (n <=? 222) && negb (n =? 215))%nat
  then ascii_of_nat (n + 32) else c.

(** [x.lower()] *)
Definition lower (x : string) : string :=
  string_of_list_ascii (map lower_char (list_ascii_of_string x)).

(** [file_path.suffix] of pathlib: the name from its last dot on, when that
    dot is neither the first nor the last character. *)
Definition suffix (file_path : Path) : string :=
  let n := list_ascii_of_string (name file_path) in
  let i := rfind n "."%char in
  if (0 <? i) && (i <? len n - 1) then string_of_list_ascii (slice_from n i)
  else ""%string.

Definition get_supported_extensions : list string :=
  [".pdf"; ".docx"; ".txt"; ".csv"; ".xlsx"; ".xls"]%string.

(** [x in xs] for strings *)
Definition str_in (x : string) (xs : list string) : bool := existsb (String.eqb x) xs.

(** What the readers give for one file; [None] when the reader raises. *)
Record Readers := {
  pdf_pages : option (list str);        (* [page.extract_text()] of each page of [PdfReader(file_path)] *)
  docx_paragraphs : option (list str);  (* [paragraph.text] of each paragraph of [DocxDocument(file_path)] *)
  txt_content : option str;             (* [open(file_path, 'r', ...).read()] *)
  csv_frame : option DataFrame;         (* [pd.read_csv(file_path)] *)
  excel_frames : option (list (string * DataFrame))
                                        (* [pd.read_excel] of each sheet of [pd.ExcelFile(file_path)] *)
}.

Section Files.

Variable re_split_legal : str -> list str.
Variable re_match_legal : str -> bool.
Variable re_split_paragraphs : str -> list str.
Variable md5_hexdigest : string -> string.

(** The loop [for i, chunk in enumerate(chunks)] of [_process_pdf] and
    [_process_docx]; it is the one of [_process_txt] with another
    ['source_type']. *)
Fixpoint chunk_documents (source_type : string) (file_path : Path) (total : Z)
         (extra : dict) (clock : nat -> string) (i : nat) (rest : list str)
  : list Document :=
  match rest with
  | [] => []
  | chunk :: rest' =>
      let doc_id := _generate_document_id md5_hexdigest file_path (str_of_int (Z.of_nat i)) in
      let doc_metadata :=
        dict_update
          [("source_file", VStr (name file_path)); ("source_type", VStr source_type);
           ("chunk_index", VInt (Z.of_nat i)); ("total_chunks", VInt total);
           ("processed_at", VStr (clock i))]%string
          extra in
      {| id := doc_id; content := chunk; metadata := doc_metadata |}
        :: chunk_documents source_type file_path total extra clock (S i) rest'
  end.

(** [full_text += f"\n\n--- Page {page_num + 1} ---\n{page_text}"] over the
    pages from number [page_num] on. *)
Fixpoint pdf_text (page_num : nat) (pages : list str) : str :=
  match pages with
  | [] => []
  | page_text :: rest =>
      ["010"; "010"]%char ++ s "--- Page " ++ s (str_of_int (Z.of_nat page_num + 1))
        ++ s " ---" ++ ["010"%char] ++ page_text ++ pdf_text (S page_num) rest
  end.

(** [full_text += paragraph.text + "\n"] over the paragraphs. *)
Fixpoint docx_text (paragraphs : list str) : str :=
  match paragraphs with
  | [] => []
  | p :: rest => p ++ ["010"%char] ++ docx_text rest
  end.

(** The part that [_process_pdf] and [_process_docx] share: chunk the text,
    make the documents.  [None]: the chunker does not come back. *)
Definition chunked (fuel : nat) (self : t) (source_type : string) (file_path : Path)
           (full_text : str) (chunking_mode : string) (extra : dict)
           (clock : nat -> string) : option (list Document) :=
  match _apply_chunking_strategy re_split_legal re_match_legal re_split_paragraphs
          fuel self full_text chunking_mode with
  | None => None
  | Some chunks =>
      Some (chunk_documents source_type file_path (len chunks) extra clock 0%nat chunks)
  end.

Definition _process_pdf (fuel : nat) (self : t) (file_path : Path)
           (pages : option (list str)) (chunking_mode : string) (extra : dict)
           (clock : nat -> string) : option (list Document) :=
  match pages with
  | None => Some []
  | Some pages =>
      chunked fuel self "pdf" file_path (pdf_text 0 pages) chunking_mode extra clock
  end.

Definition _process_docx (fuel : nat) (self : t) (file_path : Path)
           (paragraphs : option (list str)) (chunking_mode : string) (extra : dict)
           (clock : nat -> string) : option (list Document) :=
  match paragraphs with
  | None => Some []
  | Some paragraphs =>
      chunked fuel self "docx" file_path (docx_text paragraphs) chunking_mode extra clock
  end.

(** [process_file]; [extra] is [metadata or {}]. *)
Definition process_file (fuel : nat) (self : t) (file_path : Path) (rd : Readers)
           (chunking_mode : string) (extra : dict) (clock : nat -> string)
  : option (list Document) :=
  let file_extension := lower (suffix file_path) in
  if String.eqb file_extension ".pdf" then
    _process_pdf fuel self file_path (pdf_pages rd) chunking_mode extra clock
  else if String.eqb file_extension ".docx" then
    _process_docx fuel self file_path (docx_paragraphs rd) chunking_mode extra clock
  else if String.eqb file_extension ".txt" then
    _process_txt re_split_legal re_match_legal re_split_paragraphs md5_hexdigest
                 fuel self file_path (txt_content rd) chunking_mode extra clock
  else if String.eqb file_extension ".csv" then
    Some (_process_csv md5_hexdigest file_path (csv_frame rd) extra clock)
  else if str_in file_extension [".xlsx"; ".xls"]%string then
    Some (_process_excel md5_hexdigest file_path (excel_frames rd) extra clock)
  else Some [].

(** *** [validate_file] *)

(** What the file system says about the file. *)
Record FileStat := {
  exists_ : res bool;          (* [file_path.exists()] *)
  st_size : res Z              (* [file_path.stat().st_size] *)
}.

(** The dictionary [validate_file] returns. *)
Record Validation := {
  valid : bool;
  error : option string;
  size_mb : Q;
  extension : string
}.

(** [round(x, 2)] and [f"{x:.1f}"] on floats. *)
Variable round2 : Q -> Q.
Variable format1 : Q -> string.

Definition validate_file (file_path : Path) (fs : FileStat) : Validation :=
  let ext := lower (suffix file_path) in
  let failed (size : Q) (e : string) :=
    {| valid := false; error := Some e; size_mb := size; extension := ext |} in
  match exists_ fs with
  | Raise e => failed 0%Q ("Validation error: " ++ e)%string
  | Ok false => failed 0%Q "File does not exist"%string
  | Ok true =>
      if negb (str_in ext get_supported_extensions)
      then failed 0%Q ("Unsupported file type: " ++ suffix file_path)%string
      else
        match st_size fs with
        | Raise e => failed 0%Q ("Validation error: " ++ e)%string
        | Ok file_size =>
            let mb := (inject_Z file_size / inject_Z (1024 * 1024))%Q in
            if Qle_bool mb 100 then
              {| valid := true; error := None; size_mb := round2 mb; extension := ext |}
            else
              failed (round2 mb)
                     ("File too large: " ++ format1 mb ++ "MB (max 100MB)")%string
        end
  end.

End Files.

End FileProcessing.

(** ** [database_manager.py]: creating, listing and filling databases

    What ChromaDB and the file system will do with a new directory or with
    an insertion is an input of the operation. *)

Module DatabaseStore.
Import Py DatabaseManager.

(** The environment of one [create_database]. *)
Record Creation := {
  created : res Collection;      (* [PersistentClient(...)] then [client.create_collection(...)] *)
  metadata_written : bool;       (* writing [metadata.enc] does not raise *)
  new_removable : bool           (* [shutil.rmtree] of the new directory will not raise *)
}.

Definition set_disk (d : gmap string Container) (st : t) : t :=
  {| active_databases := active_databases st; disk := d; audit := audit st;
     audit_writable := audit_writable st; now := now st; effects := effects st |}.

(** The metadata [create_database] encrypts and writes; numbers and
    booleans are given as the text that JSON has for them. *)
Definition new_metadata (name description created_at : string) : Meta :=
  [("name", name); ("description", description); ("created_at", created_at);
   ("document_count", "0"); ("encrypted", "true")]%string.

(** [create_database].  After [db_path.mkdir()] the directory is there; it
    has no collection until [create_collection] has returned (opening it
    raises) and no readable metadata until [metadata.enc] is written. *)
Definition create_database (name description : string) (env : Creation) : M bool :=
  try_except
    (fun st =>
       match disk st !! name with
       | Some _ => (Ok false, st)
       | None =>
           let dir c m :=
             {| chroma := c; metadata_enc := m; removable := new_removable env |} in
           let st1 :=
             set_disk (<[name := dir (Raise "Collection documents does not exist") None]>
                         (disk st)) st in
           match created env with
           | Raise e => (Raise e, st1)
           | Ok coll =>
               let st2 := set_disk (<[name := dir (Ok coll) None]> (disk st)) st in
               if metadata_written env then
                 let metadata := new_metadata name description (now st) in
                 let st3 := set_disk (<[name := dir (Ok coll) (Some metadata)]> (disk st)) st in
                 (let! _ := _log_audit CREATE_DATABASE name
                                       ("Database created: " ++ description) in
                  ret true) st3
               else (Raise "cannot write metadata.enc", st2)
           end
       end)
    (fun _ => ret false).

(** [list_databases]: the metadata of the directories whose [metadata.enc]
    is there and decrypts to a non-empty dictionary.  The order is the one
    of [iterdir], which is not specified. *)
Definition list_databases (st : t) : list Meta :=
  omap (fun kv : string * Container =>
          match metadata_enc (snd kv) with
          | Some m => if truthy m then Some m else None
          | None => None
          end)
       (map_to_list (disk st)).

(** The environment of one [add_documents]. *)
Record Addition := {
  after_add : res Collection;    (* [collection.add(...)]: the collection as it answers afterwards *)
  count : res Z;                 (* [collection.count()] *)
  metadata_rewritten : bool      (* rewriting [metadata.enc] does not raise *)
}.

(** The collection of [name] is the same object in the cache and on disk. *)
Definition set_collection (name : string) (coll : Collection) (st : t) : t :=
  {| active_databases :=
       match active_databases st !! name with
       | Some h => <[name := {| collection := coll; metadata := metadata h |}]>
                     (active_databases st)
       | None => active_databases st
       end;
     disk :=
       match disk st !! name with
       | Some c => <[name := {| chroma := Ok coll; metadata_enc := metadata_enc c;
                                removable := removable c |}]> (disk st)
       | None => disk st
       end;
     audit := audit st; audit_writable := audit_writable st; now := now st;
     effects := effects st |}.

(** [metadata['document_count'] = n] on the dictionary that the cache
    holds. *)
Definition set_cached_metadata (name : string) (m : Meta) (st : t) : t :=
  match active_databases st !! name with
  | Some h =>
      set_active (<[name := {| collection := collection h; metadata := Some m |}]>
                    (active_databases st)) st
  | None => st
  end.

(** [_update_database_metadata]: an error is logged, not raised. *)
Definition _update_database_metadata (name : string) (m : Meta) (ok : bool) : M unit :=
  fun st =>
    if ok then
      match disk st !! name with
      | Some c =>
          (Ok tt,
           set_disk (<[name := {| chroma := chroma c; metadata_enc := Some m;
                                  removable := removable c |}]> (disk st)) st)
      | None => (Ok tt, st)
      end
    else (Ok tt, st).

Definition add_documents (database_name : string)
           (documents : list DocumentProcessor.Document) (env : Addition) : M bool :=
  try_except
    (let! db := load_database database_name in
     match db with
     | None => ret false
     | Some db =>
         let! coll := lift (after_add env) in
         let! _ := (fun st => (Ok tt, set_collection database_name coll st)) in
         let! n := lift (count env) in
         match metadata db with
         | None => lift (Raise "'NoneType' object does not support item assignment")
         | Some metadata =>
             let metadata := dict_set metadata "document_count" (str_of_int n) in
             let! _ := (fun st => (Ok tt, set_cached_metadata database_name metadata st)) in
             let! _ := _update_database_metadata database_name metadata
                         (metadata_rewritten env) in
             let! _ := _log_audit ADD_DOCUMENTS database_name
                         ("Added " ++ str_of_int (len documents) ++ " documents") in
             ret true
         end
     end)
    (fun _ => ret false).

End DatabaseStore.

(** ** [rag_pipeline.py]: loading a model *)

Module ModelLoading.
Import Py RAGPipeline.

(** An item of [config['models']] with the keys [load_model] reads. *)
Record ModelConfig := {
  model : Model;
  file_path : string;
  context_length : option Z
}.

Definition set_model (m : Model) (g : Generator) (self : t) : t :=
  {| max_chunks_per_query := max_chunks_per_query self;
     current_model := Some m;
     current_generator := Some g;
     database_manager := database_manager self |}.

(** [for model in self.config['models']: if model['name'] == model_name: ...; break] *)
Fixpoint find_model (models : list ModelConfig) (model_name : string) : option ModelConfig :=
  match models with
  | [] => None
  | m :: rest => if String.eqb (name (model m)) model_name then Some m else find_model rest model_name
  end.

Section Load.

(** [(self.models_dir / file_path).exists()] *)
Variable model_file_exists : string -> bool.
(** [LlamaCppGenerator(model=..., n_ctx=n, ...)] for the file and [n_ctx] *)
Variable new_generator : string -> Z -> res Generator.

Definition load_model (models : list ModelConfig) (self : t) (model_name : string)
  : bool * t :=
  match find_model models model_name with
  | None => (false, self)
  | Some model_config =>
      if negb (model_file_exists (file_path model_config)) then (false, self)
      else
        let n_ctx := match context_length model_config with Some n => n | None => 4096 end in
        match new_generator (file_path model_config) n_ctx with
        | Raise _ => (false, self)
        | Ok g => (true, set_model (model model_config) g self)
        end
  end.

End Load.

End ModelLoading.

(** ** [prompt_workshop.py]: running a chain of prompts *)

Module PromptWorkshop.
Import Py.

Record PromptTemplate := {
  template_id : string;
  name : string;
  description : string;
  template_content : str;
  variables : list string;
  category : string
}.

(** An item of [chain.steps]. *)
Record Step := { step_template_id : string; step_name : string }.

Record PromptChain := {
  chain_id : string;
  chain_name : string;
  steps : list Step
}.

(** [self.templates] and [self.chains], in insertion order. *)
Record t := {
  templates : list (string * PromptTemplate);
  chains : list (string * PromptChain)
}.

(** An item of the list [execute_chain] returns: with ['prompt'] and
    ['answer'], or with ['error']. *)
Record StepResult := {
  step_number : Z;
  result_step_name : string;
  result_template_id : string;
  prompt : option str;
  answer : option str;
  step_error : option string;
  timestamp : string
}.

Definition get_template (self : t) (id : string) : option PromptTemplate :=
  dict_get (templates self) id.

Definition get_chain (self : t) (id : string) : option PromptChain :=
  dict_get (chains self) id.

Section Chains.

(** [Template(content).render( **variables)] of jinja2 *)
Variable jinja_render : str -> list (string * str) -> res str.

(** [PromptTemplate.render] *)
Definition render (template : PromptTemplate) (vars : list (string * str)) : str :=
  match jinja_render (template_content template) vars with
  | Ok x => x
  | Raise e => s ("Template rendering error: " ++ e)
  end.

(** [for i, step in enumerate(chain.steps)] of [execute_chain], from the
    step of index [i] on; [clock i] is the time read in that step. *)
Fixpoint run_steps (self : t) (generator : option RAGPipeline.Generator)
         (clock : nat -> string) (i : nat) (rest : list Step)
         (current_variables : list (string * str)) (results : list StepResult)
  : list StepResult :=
  match rest with
  | [] => results
  | step :: rest' =>
      let failed (e : string) :=
        results ++ [{| step_number := Z.of_nat i + 1;
                       result_step_name := step_name step;
                       result_template_id := step_template_id step;
                       prompt := None; answer := None; step_error := Some e;
                       timestamp := clock i |}] in
      match get_template self (step_template_id step) with
      | None => run_steps self generator clock (S i) rest' current_variables results
      | Some template =>
          let prompt_ := render template current_variables in
          match generator with
          | None => failed "'NoneType' object has no attribute 'run'"
          | Some g =>
              match RAGPipeline.run g prompt_ with
              | Raise e => failed e
              | Ok replies =>
                  let answer_ :=
                    match replies with
                    | r :: _ => r
                    | [] => s "No response generated."
                    end in
                  let step_result :=
                    {| step_number := Z.of_nat i + 1;
                       result_step_name := step_name step;
                       result_template_id := step_template_id step;
                       prompt := Some prompt_; answer := Some answer_;
                       step_error := None; timestamp := clock i |} in
                  let vars := dict_set current_variables "previous_answer" answer_ in
                  let vars :=
                    dict_set vars ("step_" ++ str_of_int (Z.of_nat i + 1) ++ "_result") answer_ in
                  run_steps self generator clock (S i) rest' vars (results ++ [step_result])
              end
          end
      end
  end.

(** [execute_chain]; [progress_callback] is [None]. *)
Definition execute_chain (self : t) (id : string)
           (initial_variables : list (string * str))
           (rag_pipeline : option RAGPipeline.t) (clock : nat -> string)
  : res (list StepResult) :=
  match get_chain self id with
  | None => Raise ("Chain " ++ id ++ " not found")
  | Some chain =>
      match rag_pipeline with
      | None => Raise "RAG pipeline not initialized or no model loaded"
      | Some pipeline =>
          match RAGPipeline.current_model pipeline with
          | None => Raise "RAG pipeline not initialized or no model loaded"
          | Some _ =>
              Ok (run_steps self (RAGPipeline.current_generator pipeline) clock
                            0%nat (steps chain) initial_variables [])
          end
      end
  end.

End Chains.

End PromptWorkshop.

(** ** Further notions used by the properties *)

Module Notions.
Import Py.

(** The text does not begin with white space. *)
Definition starts_clean (x : str) : Prop :=
  match x with
  | [] => True
  | c :: _ => isspace c = false
  end.

(** From [st] to [st'] the audit log has only grown, by rows of the
    local user stamped with the time of [st]; whether it can be written and
    the time are as they were. *)
Definition appends (st st' : DatabaseManager.t) : Prop :=
  (exists new,
      DatabaseManager.audit st' = DatabaseManager.audit st ++ new
      /\ Forall (fun r => DatabaseManager.timestamp r = DatabaseManager.now st
                          /\ DatabaseManager.user r = "local_user"%string) new)
  /\ DatabaseManager.audit_writable st' = DatabaseManager.audit_writable st
  /\ DatabaseManager.now st' = DatabaseManager.now st.

(** A computation that does not raise and only appends to the audit log. *)
Definition contained {A} (m : DatabaseManager.M A) : Prop :=
  forall st, (exists a, fst (m st) = Ok a) /\ appends st (snd (m st)).

(** A computation that only appends to the audit log, raising or not. *)
Definition appending {A} (m : DatabaseManager.M A) : Prop :=
  forall st, appends st (snd (m st)).

(** The manager of [Spec.alpha_only] with ["Alpha"] already opened and an
    audit log that cannot be written. *)
Definition alpha_unlogged : DatabaseManager.t :=
  {| DatabaseManager.active_databases :=
       {[ "Alpha"%string :=
            {| DatabaseManager.collection :=
                 Spec.one_hit_collection (s "alpha text") (1 # 2);
               DatabaseManager.metadata := None |} ]};
     DatabaseManager.disk := DatabaseManager.disk Spec.alpha_only;
     DatabaseManager.audit := [];
     DatabaseManager.audit_writable := false;
     DatabaseManager.now := "2024-01-01T00:00:00"%string;
     DatabaseManager.effects := [] |}.

(** The variables after a step result: a result with an answer sets
    ['previous_answer'] and ['step_<n>_result'] for its step number. *)
Definition record_answer (vars : list (string * str)) (r : PromptWorkshop.StepResult)
  : list (string * str) :=
  match PromptWorkshop.answer r with
  | Some a =>
      dict_set (dict_set vars "previous_answer" a)
               ("step_" ++ str_of_int (PromptWorkshop.step_number r) ++ "_result") a
  | None => vars
  end.

(** The variables after a list of step results, from [vars] on. *)
Definition vars_after (vars : list (string * str)) (rs : list PromptWorkshop.StepResult)
  : list (string * str) :=
  fold_left record_answer rs vars.

(** The result [r] is about one of [steps], whose first has the index
    [offset] in its chain: the step number points at it, the name and the
    template id are its own, the time is the one read in that step, and
    its template exists. *)
Definition about_step (self : PromptWorkshop.t) (clock : nat -> string)
           (steps : list PromptWorkshop.Step) (offset : nat)
           (r : PromptWorkshop.StepResult) : Prop :=
  Z.of_nat offset < PromptWorkshop.step_number r <= Z.of_nat offset + Z.of_nat (length steps)
  /\ exists step,
      nth_error steps (Z.to_nat (PromptWorkshop.step_number r - 1 - Z.of_nat offset))
      = Some step
      /\ PromptWorkshop.result_step_name r = PromptWorkshop.step_name step
      /\ PromptWorkshop.result_template_id r = PromptWorkshop.step_template_id step
      /\ PromptWorkshop.timestamp r = clock (Z.to_nat (PromptWorkshop.step_number r - 1))
      /\ PromptWorkshop.get_template self (PromptWorkshop.step_template_id step) <> None.

(** A chain of two steps over two templates, the second of which is
    listed under an id that no template has. *)
Definition two_step_workshop : PromptWorkshop.t :=
  {| PromptWorkshop.templates :=
       [("t1"%string,
         {| PromptWorkshop.template_id := "t1"; PromptWorkshop.name := "Extract";
            PromptWorkshop.description := ""; PromptWorkshop.template_content := s "extract";
            PromptWorkshop.variables := ["query"]%string;
            PromptWorkshop.category := "Chain" |});
        ("t2"%string,
         {| PromptWorkshop.template_id := "t2"; PromptWorkshop.name := "Analyze";
            PromptWorkshop.description := ""; PromptWorkshop.template_content := s "analyze";
            PromptWorkshop.variables := ["previous_answer"]%string;
            PromptWorkshop.category := "Chain" |})];
     PromptWorkshop.chains :=
       [("c"%string,
         {| PromptWorkshop.chain_id := "c"; PromptWorkshop.chain_name := "demo";
            PromptWorkshop.steps :=
              [{| PromptWorkshop.step_template_id := "t1";
                  PromptWorkshop.step_name := "Extract" |};
               {| PromptWorkshop.step_template_id := "missing";
                  PromptWorkshop.step_name := "Gone" |};
               {| PromptWorkshop.step_template_id := "t2";
                  PromptWorkshop.step_name := "Analyze" |}] |})] |}.

(** A stand-in for jinja2: the template followed by the value of
    ['previous_answer'], if any. *)
Definition append_previous (content : str) (vars : list (string * str)) : res str :=
  Ok (content ++ match dict_get vars "previous_answer" with Some a => a | None => [] end).

(** A result dictionary whose keys are pairwise distinct and satisfy
    [requested], and whose hits carry the name of their key. *)
Definition well_tagged (requested : string -> Prop) (rs : DatabaseManager.results) : Prop :=
  List.NoDup (map fst rs)
  /\ forall db hits,
      In (db, hits) rs ->
      requested db /\ Forall (fun h => DatabaseManager.source_database h = db) hits.

End Notions.

(** * Properties *)

(** ** General chunking *)

Section GeneralChunking.
Import Py DocumentProcessor Spec.

Lemma len_nonneg {A} (x : list A) : 0 <= len x.
Proof. unfold len. lia. Qed.

Lemma len_app {A} (x y : list A) : len (x ++ y) = len x + len y.
Proof. unfold len. rewrite length_app. lia. Qed.

Lemma rfind_from_range c x i :
  0 <= i -> rfind_from c x i = -1 \/ i <= rfind_from c x i < i + len x.
Proof.
  revert i. induction x as [|y x IH]; intros i Hi; simpl; [now left|].
  unfold len in *. simpl length. rewrite Nat2Z.inj_succ.
  destruct (IH (i + 1) ltac:(lia)) as [E|R].
  - rewrite E. simpl. destruct (Ascii.eqb y c); [right; lia | now left].
  - destruct (Z.leb_spec 0 (rfind_from c x (i + 1))); [right; lia | lia].
Qed.

Lemma rfind_range x c : -1 <= rfind x c < len x.
Proof.
  unfold rfind. destruct (rfind_from_range c x 0 ltac:(lia)) as [E|R].
  - rewrite E. pose proof (len_nonneg x). lia.
  - lia.
Qed.

Lemma adjust_inner n i : 0 <= i <= n -> adjust n i = i.
Proof.
  intros H. unfold adjust. destruct (Z.ltb_spec i 0); lia.
Qed.

Lemma slice_inner {A} (x : list A) lo hi :
  0 <= lo <= hi -> hi <= len x ->
  slice x lo hi = firstn (Z.to_nat (hi - lo)) (skipn (Z.to_nat lo) x).
Proof.
  intros H1 H2. unfold slice. now rewrite !adjust_inner by lia.
Qed.

Lemma len_slice_inner {A} (x : list A) lo hi :
  0 <= lo <= hi -> hi <= len x -> len (slice x lo hi) = hi - lo.
Proof.
  intros H1 H2. rewrite slice_inner by assumption. unfold len in *.
  rewrite length_firstn, length_skipn. lia.
Qed.

Lemma slice_from_inner {A} (x : list A) lo :
  0 <= lo <= len x -> slice_from x lo = skipn (Z.to_nat lo) x.
Proof. intros H. unfold slice_from. now rewrite adjust_inner. Qed.

Lemma best_break_lt self text start :
  0 <= start -> 0 <= chunk_size self -> start + chunk_size self <= len text ->
  best_break self text start < chunk_size self.
Proof.
  intros Hs Hc Hl. unfold best_break.
  set (chunk := slice text start (start + chunk_size self)).
  assert (len chunk = chunk_size self) as Hlen.
  { unfold chunk. rewrite len_slice_inner; lia. }
  pose proof (rfind_range chunk "."%char).
  pose proof (rfind_range chunk "010"%char). lia.
Qed.

(** Where a window that is not the tail ends. *)
Lemma window_end_range self text start :
  valid self -> moderate_overlap self ->
  0 <= start -> start + chunk_size self <= len text ->
  start + chunk_overlap self < window_end self text start <= start + chunk_size self.
Proof.
  intros [Ho Hv] Hm Hs Hl. unfold moderate_overlap in Hm. unfold window_end.
  pose proof (best_break_lt self text start Hs ltac:(lia) Hl) as Hb.
  rewrite Z.gtb_ltb.
  destruct (Z.ltb_spec (start + chunk_size self / 2) (best_break self text start)); lia.
Qed.

Lemma remove_overlap_snoc ov chunks w :
  chunks <> [] ->
  remove_overlap ov (chunks ++ [w]) = remove_overlap ov chunks ++ slice_from w ov.
Proof.
  destruct chunks as [|c rest]; [congruence|]. intros _. simpl.
  rewrite map_app, concat_app. simpl. rewrite app_nil_r. now rewrite app_assoc.
Qed.

Lemma firstn_extend {A} (x : list A) (a b : Z) :
  0 <= a <= b ->
  firstn (Z.to_nat a) x ++ firstn (Z.to_nat (b - a)) (skipn (Z.to_nat a) x)
  = firstn (Z.to_nat b) x.
Proof.
  intros H. rewrite take_take_drop. f_equal. lia.
Qed.

Lemma chunk_loop_reconstructs self text :
  valid self -> moderate_overlap self ->
  forall fuel start chunks,
    0 <= start -> start + chunk_overlap self <= len text ->
    chunks <> [] ->
    remove_overlap (chunk_overlap self) chunks
    = firstn (Z.to_nat (start + chunk_overlap self)) text ->
    Forall (fun c => len c <= chunk_size self) chunks ->
    len text - start < Z.of_nat fuel ->
    exists ws, chunk_loop fuel self text start chunks = Some ws
               /\ remove_overlap (chunk_overlap self) ws = text
               /\ Forall (fun c => len c <= chunk_size self) ws.
Proof.
  intros Hv Hm. pose proof Hv as [Ho Hoc].
  induction fuel as [|fuel IH]; intros start chunks Hs Hso Hne Hrec Hall Hfuel.
  - simpl in Hfuel. lia.
  - simpl. destruct (Z.ltb_spec start (len text)) as [Hlt|Hge].
    + unfold loop_body. rewrite Z.geb_leb.
      destruct (Z.leb_spec (len text) (start + chunk_size self)) as [Htail|Hcut].
      * (* the tail *)
        exists (chunks ++ [slice_from text start]). split; [reflexivity|].
        assert (slice_from text start = skipn (Z.to_nat start) text) as Hw
            by (apply slice_from_inner; lia).
        assert (len (skipn (Z.to_nat start) text) = len text - start) as Hlw
            by (unfold len; rewrite length_skipn; unfold len in *; lia).
        split.
        -- rewrite remove_overlap_snoc by assumption. rewrite Hrec, Hw.
           rewrite slice_from_inner by lia. rewrite skipn_skipn.
           replace (Z.to_nat (chunk_overlap self) + Z.to_nat start)%nat
             with (Z.to_nat (start + chunk_overlap self)) by lia.
           apply firstn_skipn.
        -- apply Forall_app. split; [assumption|]. constructor; [|constructor].
           rewrite Hw, Hlw. lia.
      * (* a window followed by another *)
        pose proof (window_end_range self text start Hv Hm Hs ltac:(lia)) as He.
        set (e := window_end self text start) in *.
        assert (len (slice text start e) = e - start) as Hlw
            by (apply len_slice_inner; lia).
        apply IH; try lia.
        -- intros E. apply app_eq_nil in E. destruct E; discriminate.
        -- rewrite remove_overlap_snoc by assumption. rewrite Hrec.
           rewrite (slice_from_inner (slice text start e)) by lia.
           rewrite slice_inner by lia. rewrite skipn_firstn_comm, skipn_skipn.
           replace (Z.to_nat (chunk_overlap self) + Z.to_nat start)%nat
             with (Z.to_nat (start + chunk_overlap self)) by lia.
           replace (Z.to_nat (e - start) - Z.to_nat (chunk_overlap self))%nat
             with (Z.to_nat (e - (start + chunk_overlap self))) by lia.
           rewrite firstn_extend by lia. f_equal. lia.
        -- apply Forall_app. split; [assumption|]. constructor; [|constructor].
           rewrite Hlw. lia.
    + exists chunks. split; [reflexivity|]. split; [|assumption].
      rewrite Hrec. apply firstn_all2. unfold len in *. lia.
Qed.

Lemma length_lstrip x : (length (lstrip x) <= length x)%nat.
Proof.
  induction x as [|c x IH]; simpl; [lia|].
  destruct (isspace c); simpl; lia.
Qed.

Lemma len_strip x : len (strip x) <= len x.
Proof.
  unfold strip, rstrip, len. rewrite length_rev.
  pose proof (length_lstrip (rev (lstrip x))) as H1. rewrite length_rev in H1.
  pose proof (length_lstrip x). lia.
Qed.

Lemma strip_nonblank_within n ws :
  Forall (fun w => len w <= n) ws -> Forall (fun c => len c <= n) (strip_nonblank ws).
Proof.
  unfold strip_nonblank. induction 1 as [|w ws Hw _ IH]; simpl; [constructor|].
  destruct (truthy (strip w)); simpl; [constructor|]; try assumption.
  pose proof (len_strip w). lia.
Qed.

End GeneralChunking.

Section GeneralChunkingClaims.
Import Py DocumentProcessor Spec.

(** C1, as the code has it.  For every text and every configuration with
    [0 <= chunk_overlap < chunk_size] and
    [chunk_overlap <= chunk_size // 2 + 1], general chunking returns (with
    fuel beyond the length of the text); the windows it cuts, before they
    are trimmed, give the text back when they are concatenated with the
    overlap removed; every window is at most [chunk_size] long; and the
    chunks returned are the windows trimmed, the blank ones dropped (the
    text itself, untrimmed, when it is no longer than [chunk_size]), so
    that every chunk returned, the last included, is at most
    [chunk_size] long. *)
Theorem general_chunking_reconstructs self text fuel :
  valid self -> moderate_overlap self -> (length text < fuel)%nat ->
  exists windows,
    general_windows fuel self text = Some windows
    /\ remove_overlap (chunk_overlap self) windows = text
    /\ Forall (fun w => len w <= chunk_size self) windows
    /\ _chunk_general_text fuel self text
       = Some (if len text <=? chunk_size self then windows
               else strip_nonblank windows)
    /\ forall chunks, _chunk_general_text fuel self text = Some chunks ->
                      Forall (fun c => len c <= chunk_size self) chunks.
Proof.
  intros Hv Hm Hfuel. pose proof Hv as [Ho Hoc].
  unfold general_windows, _chunk_general_text.
  destruct (Z.leb_spec (len text) (chunk_size self)) as [Hshort|Hlong].
  - exists [text]. repeat split.
    + simpl. apply app_nil_r.
    + constructor; [assumption|constructor].
    + intros chunks [= <-]. constructor; [assumption|constructor].
  - destruct fuel as [|fuel]; [lia|].
    cbn [chunk_loop].
    destruct (Z.ltb_spec 0 (len text)) as [_|]; [|lia].
    unfold loop_body. rewrite Z.geb_leb.
    destruct (Z.leb_spec (len text) (0 + chunk_size self)) as [|_]; [lia|].
    pose proof (window_end_range self text 0 Hv Hm ltac:(lia) ltac:(lia)) as He.
    set (e := window_end self text 0) in *.
    match goal with
    | |- context [chunk_loop fuel self text ?start ?chunks] =>
        destruct (chunk_loop_reconstructs self text Hv Hm fuel start chunks)
          as (ws & Hrun & Hrec & Hall)
    end.
    + lia.
    + lia.
    + discriminate.
    + simpl. rewrite app_nil_r, slice_inner by lia. simpl.
      f_equal. lia.
    + constructor; [|constructor]. rewrite len_slice_inner; lia.
    + unfold len in *. lia.
    + exists ws. rewrite Hrun. repeat split; try assumption.
      intros chunks [= <-]. now apply strip_nonblank_within.
Qed.

Lemma general_chunking_reconstructs_witness :
  exists windows,
    general_windows 30 (mk 10 2) (s "One. Two sentences here. End") = Some windows
    /\ remove_overlap 2 windows = s "One. Two sentences here. End"
    /\ Forall (fun w => len w <= 10) windows
    /\ _chunk_general_text 30 (mk 10 2) (s "One. Two sentences here. End")
       = Some (if len (s "One. Two sentences here. End") <=? 10 then windows
               else strip_nonblank windows)
    /\ forall chunks,
        _chunk_general_text 30 (mk 10 2) (s "One. Two sentences here. End") = Some chunks ->
        Forall (fun c => len c <= 10) chunks.
Proof.
  apply (general_chunking_reconstructs (mk 10 2) (s "One. Two sentences here. End") 30).
  - split; simpl; lia.
  - apply Z.leb_le; reflexivity.
  - simpl; lia.
Defined.

(** C1 as stated fails: with [chunk_size = 4] and [chunk_overlap = 0] the
    text ["ab  cd"] is cut into the windows ["ab  "] and ["cd"], returned
    trimmed; their concatenation has lost the two blanks. *)
Lemma general_chunking_trimming_loses_text :
  valid (mk 4 0)
  /\ _chunk_general_text 10 (mk 4 0) (s "ab  cd") = Some [s "ab"; s "cd"]
  /\ remove_overlap 0 [s "ab"; s "cd"] <> s "ab  cd".
Proof.
  split; [split; simpl; lia|]. split; [reflexivity|]. discriminate.
Qed.

(** In a window whose start is at least about half a chunk size, there is
    no break point that the comparison accepts: the window-relative
    [best_break] is below [chunk_size], the bound it is compared to is
    [start + chunk_size // 2]. *)
Lemma later_windows_ignore_breaks self text start :
  0 <= start -> 0 <= chunk_size self -> start + chunk_size self <= len text ->
  chunk_size self - 1 <= start + chunk_size self / 2 ->
  window_end self text start = start + chunk_size self.
Proof.
  intros Hs Hc Hl Hhalf. unfold window_end.
  pose proof (best_break_lt self text start Hs Hc Hl). rewrite Z.gtb_ltb.
  destruct (Z.ltb_spec (start + chunk_size self / 2) (best_break self text start));
    [lia | reflexivity].
Qed.

(** C4 at a second window.  With [chunk_size = 10] and no overlap, the
    second window of the text below is ["bbbbbbb.cc"]: its last full stop
    is at offset 7 of the window, beyond the midpoint 5, and the window is
    still cut at the hard boundary, not after the full stop. *)
Theorem sentence_break_missed_after_first_window :
  let self := mk 10 0 in
  let text := s "aaaaaaaaaabbbbbbb.ccdddd" in
  slice text 10 20 = s "bbbbbbb.cc"
  /\ best_break self text 10 = 7
  /\ chunk_size self / 2 < 7
  /\ loop_body self text 10 = Cut (s "bbbbbbb.cc") 20
  /\ _chunk_general_text 10 self text
     = Some [s "aaaaaaaaaa"; s "bbbbbbb.cc"; s "dddd"].
Proof. cbv zeta. repeat split; vm_compute; reflexivity. Qed.

(** C8 at a text no longer than [chunk_size]: the text is returned as it
    is, so the empty text gives one empty chunk, a blank text one blank
    chunk, and a padded text a chunk that is not trimmed.  The regular
    expression functions play no part. *)
Theorem short_text_is_not_trimmed
        (re_split_legal : str -> list str) (re_match_legal : str -> bool)
        (re_split_paragraphs : str -> list str) (fuel : nat) :
  let chunk := _apply_chunking_strategy re_split_legal re_match_legal
                 re_split_paragraphs fuel (mk 1000 200) in
  chunk (s "") "general"%string = Some [s ""]
  /\ chunk (s "   ") "general"%string = Some [s "   "]
  /\ chunk (s " hi ") "general"%string = Some [s " hi "]
  /\ ~ trimmed_nonempty (s "")
  /\ ~ trimmed_nonempty (s "   ")
  /\ ~ trimmed_nonempty (s " hi ").
Proof.
  cbv zeta. repeat split; try reflexivity; intros [H1 H2];
    try (vm_compute in H1; discriminate); now apply H2.
Qed.

Lemma stuck_loop fuel : forall chunks,
  chunk_loop fuel (mk 100 52) stuck_text 0 chunks = None.
Proof.
  induction fuel as [|fuel IH]; intros chunks; [reflexivity|].
  cbn [chunk_loop].
  replace (0 <? len stuck_text) with true by (vm_compute; reflexivity).
  replace (loop_body (mk 100 52) stuck_text 0)
    with (Cut (repeat "a"%char 51 ++ s ".") 0) by (vm_compute; reflexivity).
  apply IH.
Qed.

(** C9 at [chunk_size = 100], [chunk_overlap = 52]: the first window is
    cut after the full stop at index 51, so [end = 52] and the next start
    is [52 - 52 = 0] again.  Whatever the fuel, the loop is not left. *)
Theorem general_chunking_can_loop_forever :
  valid (mk 100 52)
  /\ loop_body (mk 100 52) stuck_text 0 = Cut (repeat "a"%char 51 ++ s ".") 0
  /\ forall fuel, _chunk_general_text fuel (mk 100 52) stuck_text = None.
Proof.
  split; [split; simpl; lia|]. split; [vm_compute; reflexivity|].
  intros fuel. unfold _chunk_general_text.
  replace (len stuck_text <=? chunk_size (mk 100 52)) with false
    by (vm_compute; reflexivity).
  now rewrite stuck_loop.
Qed.

End GeneralChunkingClaims.

(** ** The database manager *)

Section Manager.
Import Py DatabaseManager Spec.

Lemma delete_database_alpha :
  delete_database "Alpha" alpha_only
  = (Ok true,
     {| active_databases := ∅; disk := delete "Alpha"%string (disk alpha_only);
        audit := [delete_record alpha_only "Alpha"];
        audit_writable := true; now := now alpha_only;
        effects := [Rmtree "Alpha"; Append (delete_record alpha_only "Alpha")] |}).
Proof. reflexivity. Qed.

(** C3 as stated fails: deleting the database ["Alpha"] that is on disk
    writes [Rmtree "Alpha"] first and the audit record second, so no
    [DELETE_DATABASE] record precedes the removal. *)
Lemma delete_database_removes_before_audit :
  effects (snd (delete_database "Alpha" alpha_only))
  = [Rmtree "Alpha"; Append (delete_record alpha_only "Alpha")]
  /\ ~ audit_before_removal "Alpha" (effects (snd (delete_database "Alpha" alpha_only))).
Proof.
  rewrite delete_database_alpha. split; [reflexivity|].
  intros H. destruct (H [] [Append (delete_record alpha_only "Alpha")] eq_refl)
    as (r & [] & _).
Qed.

(** C3, as the code has it.  [delete_database name] removes the container
    first and appends the [DELETE_DATABASE] record after the removal: when
    the container is on disk and both writes succeed, the writes are the
    removal then the record; the record is not written when the removal
    raises; when only the append raises the container is gone without a
    record; in both failures the result is [False]. *)
Theorem delete_database_audits_after_removal st name :
  exists new,
    effects (snd (delete_database name st)) = effects st ++ new
    /\ match disk st !! name with
       | Some c =>
           if removable c then
             if audit_writable st
             then new = [Rmtree name; Append (delete_record st name)]
                  /\ fst (delete_database name st) = Ok true
             else new = [Rmtree name]
                  /\ fst (delete_database name st) = Ok false
           else new = [] /\ fst (delete_database name st) = Ok false
       | None =>
           if audit_writable st
           then new = [Append (delete_record st name)]
                /\ fst (delete_database name st) = Ok true
           else new = [] /\ fst (delete_database name st) = Ok false
       end.
Proof.
  unfold delete_database, try_except, bind, rmtree, _log_audit, ret, delete_record.
  destruct (active_databases st !! name); simpl;
    destruct (disk st !! name) as [c|]; simpl;
    try destruct (removable c); simpl;
    destruct (audit_writable st); simpl;
    eexists; (split; [|split; reflexivity]);
    rewrite <- ?app_assoc, ?app_nil_r; reflexivity.
Qed.

(** C10.  When [name] is neither on disk nor in the cache and the audit
    file can be written, [delete_database name] returns [True] and its
    only effect is the appended [DELETE_DATABASE] record. *)
Theorem delete_unknown_database_returns_true st name :
  disk st !! name = None ->
  active_databases st !! name = None ->
  audit_writable st = true ->
  delete_database name st
  = (Ok true,
     {| active_databases := active_databases st; disk := disk st;
        audit := audit st ++ [delete_record st name];
        audit_writable := audit_writable st; now := now st;
        effects := effects st ++ [Append (delete_record st name)] |}).
Proof.
  intros Hd Ha Hw.
  unfold delete_database, try_except, bind, _log_audit, ret.
  now rewrite Ha, Hd, Hw.
Qed.

Lemma delete_unknown_database_returns_true_witness :
  delete_database "Ghost" alpha_only
  = (Ok true,
     {| active_databases := active_databases alpha_only; disk := disk alpha_only;
        audit := audit alpha_only ++ [delete_record alpha_only "Ghost"];
        audit_writable := audit_writable alpha_only; now := now alpha_only;
        effects := effects alpha_only ++ [Append (delete_record alpha_only "Ghost")] |}).
Proof.
  apply (delete_unknown_database_returns_true alpha_only "Ghost"); reflexivity.
Defined.

(** *** [query_databases] and a database that does not open *)

Lemma dict_get_set_ne {V} (d : list (string * V)) k v k' :
  k <> k' -> dict_get (dict_set d k v) k' = dict_get d k'.
Proof.
  intros Hne. induction d as [|[k0 v0] d IH]; simpl.
  - destruct (String.eqb_spec k k'); congruence.
  - destruct (String.eqb_spec k0 k) as [->|]; simpl.
    + destruct (String.eqb_spec k k'); congruence.
    + now rewrite IH.
Qed.

Lemma load_database_cannot_open st name :
  cannot_open st name -> load_database name st = (Ok None, st).
Proof.
  intros [Ha Hd]. unfold load_database, try_except, ret. rewrite Ha.
  destruct (disk st !! name) as [c|]; [|reflexivity].
  destruct Hd as [e ->]. reflexivity.
Qed.

Lemma frame_cannot_open name st st' :
  frame name st st' -> cannot_open st name -> cannot_open st' name.
Proof. intros [Ha Hd] [H1 H2]. unfold cannot_open. now rewrite Ha, Hd. Qed.

Lemma _log_audit_frame name a n d st :
  frame name st (snd (_log_audit a n d st)).
Proof. unfold _log_audit. destruct (audit_writable st); now split. Qed.

Lemma load_database_frame name db st :
  db <> name -> frame name st (snd (load_database db st)).
Proof.
  intros Hne. unfold load_database, try_except, bind, ret, _log_audit.
  destruct (active_databases st !! db); [now split|].
  destruct (disk st !! db) as [c|]; [|now split].
  destruct (chroma c); [|now split]. simpl.
  destruct (audit_writable st); simpl; (split; [|reflexivity]);
    now apply lookup_insert_ne.
Qed.

(** The body of the loop never raises; on another database it leaves
    alone what matters for [name]. *)
Lemma query_one_other name q n rs db st :
  db <> name ->
  exists rs', fst (query_one q n rs db st) = Ok rs'
              /\ dict_get rs' name = dict_get rs name
              /\ frame name st (snd (query_one q n rs db st)).
Proof.
  intros Hne. unfold query_one, try_except, bind.
  pose proof (load_database_frame name db st Hne) as Hf.
  destruct (load_database db st) as [[[h|]|e] st1]; simpl in *.
  - unfold lift, ret.
    destruct (query (collection h) q n) as [qr|e]; simpl.
    + destruct (format_results db qr) as [hits|e]; simpl.
      * pose proof (_log_audit_frame name QUERY_DATABASE db
                      ("Query: " ++ string_of_list_ascii (slice_to q 100) ++ "...") st1)
          as Hl.
        destruct (_log_audit _ _ _ st1) as [[[]|e] st2]; simpl in *;
          (eexists; split; [reflexivity|]; split;
           [now apply dict_get_set_ne
           |destruct Hf as [? ?], Hl as [? ?]; split; congruence]).
      * eexists; split; [reflexivity|]. split; [now apply dict_get_set_ne|assumption].
    + eexists; split; [reflexivity|]. split; [now apply dict_get_set_ne|assumption].
  - eexists; split; [reflexivity|]. now split.
  - unfold ret. eexists; split; [reflexivity|].
    split; [now apply dict_get_set_ne|assumption].
Qed.

Lemma query_one_cannot_open name q n rs st :
  cannot_open st name -> query_one q n rs name st = (Ok rs, st).
Proof.
  intros H. unfold query_one, try_except, bind.
  now rewrite load_database_cannot_open.
Qed.

Lemma query_loop_skips name q n names : forall rs st,
  cannot_open st name ->
  query_loop q n names rs st
  = query_loop q n (List.filter (fun db => negb (String.eqb db name)) names) rs st
  /\ forall rs' st', query_loop q n names rs st = (Ok rs', st') ->
                     dict_get rs' name = dict_get rs name.
Proof.
  induction names as [|db rest IH]; intros rs st Hc.
  - split; [reflexivity|]. now intros rs' st' [= <- _].
  - cbn [query_loop List.filter]. destruct (String.eqb_spec db name) as [->|Hne]; simpl.
    + unfold bind. rewrite query_one_cannot_open by assumption. now apply IH.
    + unfold bind. destruct (query_one_other name q n rs db st Hne) as (rs1 & E & Hg & Hf).
      destruct (query_one q n rs db st) as [r st1]. simpl in E, Hf. subst r.
      destruct (IH rs1 st1 (frame_cannot_open _ _ _ Hf Hc)) as [E1 E2].
      split; [assumption|]. intros rs' st' Hrun. rewrite <- Hg. now apply E2 with st'.
Qed.




End Manager.

(** ** The retrieval coordinator *)

Section Ranking.
Import Py DatabaseManager RAGPipeline Spec.
Local Open Scope Q_scope.

Lemma key_lt_true a b : key_lt a b = true -> a < b.
Proof.
  unfold key_lt. intros H. apply Qnot_le_lt. intros Hle.
  apply Qle_bool_iff in Hle. rewrite Hle in H. discriminate.
Qed.

Lemma key_lt_false a b : key_lt a b = false -> b <= a.
Proof.
  unfold key_lt. intros H. apply Qle_bool_iff.
  destruct (Qle_bool b a); [reflexivity | discriminate].
Qed.

Lemma insert_perm x l : Permutation (insert x l) (x :: l).
Proof.
  induction l as [|y l IH]; simpl; [reflexivity|].
  destruct (key_lt (fst y) (fst x)); [|reflexivity].
  rewrite IH. apply perm_swap.
Qed.

Lemma sort_keyed_perm l : Permutation (sort_keyed l) l.
Proof.
  induction l as [|x l IH]; simpl; [reflexivity|].
  rewrite insert_perm. now constructor.
Qed.

Lemma insert_sorted x l : StronglySorted kle l -> StronglySorted kle (insert x l).
Proof.
  induction 1 as [|y l Hs IH Hall]; simpl.
  - constructor; constructor.
  - destruct (key_lt (fst y) (fst x)) eqn:E.
    + constructor; [assumption|].
      apply List.Forall_forall. intros z Hz.
      apply (Permutation_in _ (insert_perm x l)) in Hz. destruct Hz as [<-|Hz].
      * apply Qlt_le_weak. now apply key_lt_true.
      * rewrite List.Forall_forall in Hall. now apply Hall.
    + apply key_lt_false in E. constructor; [now constructor|].
      constructor; [exact E|].
      apply List.Forall_forall. intros z Hz. rewrite List.Forall_forall in Hall.
      unfold kle in *. eapply Qle_trans; [exact E | now apply Hall].
Qed.

Lemma sort_keyed_sorted l : StronglySorted kle (sort_keyed l).
Proof.
  induction l as [|x l IH]; simpl; [constructor | now apply insert_sorted].
Qed.

(** Insertion passes only over strictly smaller keys, so it does not
    change the order among equal ones. *)
Lemma insert_stable d x l :
  List.filter (same_key d) (insert x l) = List.filter (same_key d) (x :: l).
Proof.
  induction l as [|y l IH]; [reflexivity|]. cbn [insert].
  destruct (key_lt (fst y) (fst x)) eqn:E; [|reflexivity].
  cbn [List.filter] in *. rewrite IH.
  destruct (same_key d y) eqn:Ey; [|reflexivity].
  destruct (same_key d x) eqn:Ex; [|reflexivity].
  exfalso. unfold same_key in *.
  apply Qeq_bool_iff in Ey, Ex. apply key_lt_true in E.
  rewrite Ey, Ex in E. now apply Qlt_irrefl in E.
Qed.

Lemma sort_keyed_stable d l :
  List.filter (same_key d) (sort_keyed l) = List.filter (same_key d) l.
Proof.
  induction l as [|x l IH]; [reflexivity|]. simpl sort_keyed.
  rewrite insert_stable. cbn [List.filter]. now rewrite IH.
Qed.

Lemma keyed_spec docs ks :
  keyed docs = Some ks -> map snd ks = docs /\ Forall decorated ks.
Proof.
  revert ks. induction docs as [|doc docs IH]; simpl; intros ks H.
  - injection H as <-. split; constructor.
  - destruct (distance doc) as [d|] eqn:Ed; [|discriminate].
    destruct (keyed docs) as [ks'|]; [|discriminate].
    injection H as <-. destruct (IH ks' eq_refl) as [E F].
    split; [simpl; now rewrite E | constructor; assumption].
Qed.

Lemma decorated_sorted l :
  Forall decorated l -> StronglySorted kle l -> StronglySorted distance_le (map snd l).
Proof.
  intros Hd Hs. induction Hs as [|p l Hs IH Hall]; simpl; [constructor|].
  inversion Hd as [|? ? Hp Hl]; subst. constructor; [now apply IH|].
  apply List.Forall_forall. intros h Hh. apply List.in_map_iff in Hh.
  destruct Hh as (q & <- & Hq). rewrite List.Forall_forall in Hall, Hl.
  unfold distance_le. rewrite Hp, (Hl q Hq). now apply Hall.
Qed.

Lemma decorated_filter d l :
  Forall decorated l ->
  List.filter (has_distance d) (map snd l) = map snd (List.filter (same_key d) l).
Proof.
  induction 1 as [|p l Hp _ IH]; [reflexivity|]. simpl.
  unfold has_distance at 1. rewrite Hp. fold (same_key d p).
  destruct (same_key d p); simpl; now rewrite IH.
Qed.

(** The sort of the code is the stable sort by distance. *)
Lemma sort_by_distance_spec docs sorted :
  sort_by_distance docs = Ok sorted -> stable_sort_of sorted docs.
Proof.
  unfold sort_by_distance, stable_sort_of.
  destruct docs as [|a [|b docs]].
  - intros [= <-]. repeat split; constructor.
  - intros [= <-]. repeat split; [reflexivity|]. repeat constructor.
  - destruct (keyed (a :: b :: docs)) as [ks|] eqn:Ek; [|discriminate].
    intros [= <-]. apply keyed_spec in Ek. destruct Ek as [Em Hd].
    assert (Forall decorated (sort_keyed ks)) as Hds.
    { apply List.Forall_forall. intros p Hp. rewrite List.Forall_forall in Hd.
      apply Hd. now apply (Permutation_in _ (sort_keyed_perm ks)). }
    split; [|split].
    + rewrite <- Em. apply Permutation_map, sort_keyed_perm.
    + apply decorated_sorted; [assumption | apply sort_keyed_sorted].
    + intros d. rewrite <- Em, !decorated_filter by assumption.
      now rewrite sort_keyed_stable.
Qed.


Lemma slice_to_nonneg {A} (l : list A) (n : Z) :
  (0 <= n)%Z -> slice_to l n = firstn (Z.to_nat n) l.
Proof.
  intros Hn. unfold slice_to, adjust.
  destruct (Z.ltb_spec n 0); [lia|].
  destruct (Z.le_gt_cases n (len l)).
  - now rewrite Z.min_l.
  - rewrite Z.min_r by lia. unfold len in *. rewrite !firstn_all2; [reflexivity|lia|lia].
Qed.


Lemma multiple_body_spec str_format self q names rs a :
  multiple_body str_format self q names rs = Ok a ->
  (collect rs = [] /\ sources a = [] /\ confidence a = 0)
  \/ (collect rs <> []
      /\ exists top, rerank (max_chunks_per_query self) (collect rs) = Ok top
                     /\ sources a = map source_info top
                     /\ confidence a = multi_confidence top names).
Proof.
  unfold multiple_body, res_bind.
  destruct (collect rs) as [|h hs] eqn:Ec; cbn [truthy negb].
  - destruct (the_model self); [|discriminate]. intros [= <-]. now left.
  - destruct (rerank _ _) as [top|]; [|discriminate].
    destruct (the_model self) as [m|]; [|discriminate].
    destruct (str_format _ _ _) as [prompt|]; [|discriminate].
    destruct (the_generator self) as [g|]; [|discriminate].
    destruct (run g prompt) as [replies|]; [|discriminate].
    intros [= <-]. right. split; [discriminate|]. now exists top.
Qed.

(** The answer of [query_multiple_databases] is the handler's, without
    sources and with confidence zero, or the one of the body. *)
Lemma query_multiple_databases_cases str_format self q names :
  let a := fst (query_multiple_databases str_format self q names) in
  (sources a = [] /\ confidence a = 0)
  \/ exists dm rs dm',
      database_manager self = Some dm
      /\ query_databases q names (max_chunks_per_query self) dm = (Ok rs, dm')
      /\ multiple_body str_format (set_manager dm' self) q names rs = Ok a.
Proof.
  cbv zeta. unfold query_multiple_databases.
  destruct (database_manager self) as [dm|]; [|now left].
  destruct (query_databases q names (max_chunks_per_query self) dm) as [[rs|e] dm'] eqn:Eq;
    [|now left].
  destruct (multiple_body _ _ _ _ rs) as [a|e] eqn:Eb; [|now left].
  right. now exists dm, rs, dm'.
Qed.



End Ranking.

Section Confidence.
Import Py DatabaseManager RAGPipeline Spec.
Local Open Scope Q_scope.











End Confidence.

(** ** Document ids *)

Section DocumentIds.
Import Py DocumentProcessor Spec.

Variable re_split_legal : str -> list str.
Variable re_match_legal : str -> bool.
Variable re_split_paragraphs : str -> list str.
Variable md5_hexdigest : string -> string.


Lemma txt_documents_length file_path total extra clock chunks : forall i,
  length (txt_documents md5_hexdigest file_path total extra clock i chunks)
  = length chunks.
Proof.
  induction chunks as [|c chunks IH]; intros i; [reflexivity|].
  simpl. now rewrite IH.
Qed.




End DocumentIds.

Section DocumentIdsWitness.
Import Py DocumentProcessor Spec.


End DocumentIdsWitness.

(** * Further properties of the code *)

(** ** The chunkers *)

Section Trimming.
Import Py DocumentProcessor Spec Notions.

Lemma lstrip_split x : exists sp, x = sp ++ lstrip x /\ forallb isspace sp = true.
Proof.
  induction x as [|c x (sp & E & H)]; [now exists []|]. simpl.
  destruct (isspace c) eqn:Ec.
  - exists (c :: sp). simpl. rewrite Ec, H. split; [now f_equal | reflexivity].
  - now exists [].
Qed.

Lemma lstrip_clean x : starts_clean (lstrip x).
Proof.
  induction x as [|c x IH]; simpl; [exact I|].
  destruct (isspace c) eqn:Ec; [assumption | exact Ec].
Qed.

Lemma lstrip_id x : starts_clean x -> lstrip x = x.
Proof. destruct x as [|c x]; simpl; [reflexivity|]. now intros ->. Qed.

Lemma rstrip_keeps_start x : starts_clean x -> starts_clean (rstrip x).
Proof.
  intros H. unfold rstrip.
  destruct (lstrip_split (rev x)) as (sp & E & _).
  apply (f_equal (@rev ascii)) in E. rewrite rev_involutive, rev_app_distr in E.
  destruct (rev (lstrip (rev x))) as [|c r]; [exact I|].
  rewrite E in H. exact H.
Qed.

Lemma strip_idempotent x : strip (strip x) = strip x.
Proof.
  unfold strip.
  rewrite (lstrip_id (rstrip (lstrip x)))
    by (apply rstrip_keeps_start, lstrip_clean).
  unfold rstrip. rewrite rev_involutive.
  now rewrite (lstrip_id (lstrip _)) by apply lstrip_clean.
Qed.

Lemma strip_trimmed x : truthy (strip x) = true -> trimmed_nonempty (strip x).
Proof.
  intros H. split; [apply strip_idempotent|].
  destruct (strip x); [discriminate | congruence].
Qed.

Lemma strip_nonblank_trimmed ws : Forall trimmed_nonempty (strip_nonblank ws).
Proof.
  unfold strip_nonblank. induction ws as [|w ws IH]; simpl; [constructor|].
  destruct (truthy (strip w)) eqn:E; simpl; [constructor|]; try assumption.
  now apply strip_trimmed.
Qed.

(** On a text longer than [chunk_size], general chunking gives trimmed,
    non-empty chunks only. *)
Lemma general_long_trimmed fuel self text chunks :
  chunk_size self < len text ->
  _chunk_general_text fuel self text = Some chunks ->
  Forall trimmed_nonempty chunks.
Proof.
  intros Hlong. unfold _chunk_general_text.
  destruct (Z.leb_spec (len text) (chunk_size self)); [lia|].
  destruct (chunk_loop fuel self text 0 []); [|discriminate].
  intros [= <-]. apply strip_nonblank_trimmed.
Qed.

Lemma Forall_slice_to {A} (P : A -> Prop) l n : Forall P l -> Forall P (slice_to l n).
Proof.
  intros H. unfold slice_to. apply List.Forall_forall. intros x Hx.
  rewrite List.Forall_forall in H. apply H.
  revert Hx. generalize (Z.to_nat (adjust (len l) n)). clear.
  induction l as [|y l IH]; intros [|k]; simpl; try tauto.
  intros [->|Hx]; [now left | right; eauto].
Qed.

Lemma Forall_last {A} (P : A -> Prop) l d : Forall P l -> P d -> P (List.last l d).
Proof.
  intros H Hd. induction H as [|x l Hx Hl IH]; [exact Hd|].
  destruct l; [exact Hx | exact IH].
Qed.

End Trimming.

Section ModesTrimmed.
Import Py DocumentProcessor Spec Notions.

Variable re_split_legal : str -> list str.
Variable re_match_legal : str -> bool.
Variable re_split_paragraphs : str -> list str.

(** What the legal loop keeps true of the chunks it has put aside. *)
Lemma legal_loop_stripped fuel self sections : forall chunks current chunks' current',
  Forall (fun c => strip c = c) chunks ->
  legal_loop re_match_legal fuel self sections (chunks, current) = Some (chunks', current') ->
  Forall (fun c => strip c = c) chunks'.
Proof.
  induction sections as [|section rest IH]; intros chunks current chunks' current' Hall.
  - simpl. now intros [= <- _].
  - cbn [legal_loop]. unfold legal_step.
    destruct (re_match_legal section).
    + apply IH. destruct (truthy current); [|assumption].
      apply Forall_app. split; [assumption|].
      constructor; [apply strip_idempotent | constructor].
    + destruct (Z.gtb_spec (len (current ++ section)) (chunk_size self * 2)) as [Hlong|_].
      * destruct (_chunk_general_text fuel self (current ++ section)) as [sub|] eqn:Eg;
          [|discriminate].
        apply IH. apply Forall_app. split; [assumption|].
        apply Forall_slice_to.
        assert (chunk_size self < len (current ++ section)) as Hlt
            by (pose proof (len_nonneg (current ++ section)); lia).
        pose proof (general_long_trimmed _ _ _ _ Hlt Eg) as Ht.
        eapply List.Forall_impl; [|exact Ht]. now intros c [Hc _].
      * now apply IH.
Qed.

Lemma letter_paragraphs_trimmed fuel self paragraphs : forall chunks chunks',
  Forall trimmed_nonempty chunks ->
  letter_paragraphs fuel self paragraphs chunks = Some chunks' ->
  Forall trimmed_nonempty chunks'.
Proof.
  induction paragraphs as [|p rest IH]; intros chunks chunks' Hall.
  - simpl. now intros [= <-].
  - cbn [letter_paragraphs].
    destruct (truthy (strip p)) eqn:Et; cbn [negb]; [|now apply IH].
    destruct (Z.gtb_spec (len (strip p)) (chunk_size self)) as [Hlong|_].
    + destruct (_chunk_general_text fuel self (strip p)) as [sub|] eqn:Eg; [|discriminate].
      apply IH. apply Forall_app. split; [assumption|].
      apply (general_long_trimmed fuel self (strip p)); [lia | assumption].
    + apply IH. apply Forall_app. split; [assumption|].
      constructor; [now apply strip_trimmed | constructor].
Qed.

Lemma letter_pages_trimmed fuel self pages : forall chunks chunks',
  Forall trimmed_nonempty chunks ->
  letter_pages re_split_paragraphs fuel self pages chunks = Some chunks' ->
  Forall trimmed_nonempty chunks'.
Proof.
  induction pages as [|page rest IH]; intros chunks chunks' Hall.
  - simpl. now intros [= <-].
  - cbn [letter_pages]. destruct (negb (truthy (strip page))); [now apply IH|].
    destruct (letter_paragraphs fuel self (re_split_paragraphs page) chunks)
      as [chunks1|] eqn:E; [|discriminate].
    apply IH. eapply letter_paragraphs_trimmed; eassumption.
Qed.

(** X1.  In the modes ["statute"] and ["letter"], and in the general mode
    on a text longer than [chunk_size], every chunk that
    [_apply_chunking_strategy] returns is non-empty and equal to its own
    trimmed form, whatever the regular expressions split off. *)
Theorem chunks_trimmed_and_nonempty fuel self text chunking_mode chunks :
  chunking_mode = "statute"%string \/ chunking_mode = "letter"%string
  \/ chunk_size self < len text ->
  _apply_chunking_strategy re_split_legal re_match_legal re_split_paragraphs
                           fuel self text chunking_mode = Some chunks ->
  Forall trimmed_nonempty chunks.
Proof.
  intros Hmode. unfold _apply_chunking_strategy.
  destruct (String.eqb_spec chunking_mode "statute") as [_|Hs].
  - unfold _chunk_legal_text.
    destruct (legal_loop _ _ _ _ _) as [[cs current]|] eqn:El; [|discriminate].
    intros [= <-]. apply legal_loop_stripped in El; [|constructor].
    assert (Forall (fun c => strip c = c)
                   (if truthy current then cs ++ [strip current] else cs)) as Hall.
    { destruct (truthy current); [|assumption].
      apply Forall_app. split; [assumption|].
      constructor; [apply strip_idempotent | constructor]. }
    revert Hall. generalize (if truthy current then cs ++ [strip current] else cs).
    intros l Hl. induction Hl as [|c l Hc _ IH]; simpl; [constructor|].
    destruct (truthy (strip c)) eqn:Et; [|assumption].
    constructor; [|assumption]. split; [assumption|].
    rewrite Hc in Et. destruct c; [discriminate | congruence].
  - destruct (String.eqb_spec chunking_mode "letter") as [_|Hl].
    + unfold _chunk_letter_text. apply letter_pages_trimmed. constructor.
    + destruct Hmode as [?|[?|Hlong]]; [congruence | congruence |].
      now apply general_long_trimmed.
Qed.

End ModesTrimmed.

Lemma chunks_trimmed_and_nonempty_witness :
  Forall Spec.trimmed_nonempty
         [Py.s "One. Two s"; Py.s "sentences"; Py.s "es here."; Py.s "next page"].
Proof.
  apply (chunks_trimmed_and_nonempty (fun t => [t]) (fun _ => false) (fun t => [t])
           30 (DocumentProcessor.mk 10 2)
           (Py.s "  One. Two sentences here.  --- Page next page  ") "letter").
  - right. left. reflexivity.
  - reflexivity.
Defined.

Section ChunkLengths.
Import Py DocumentProcessor Spec Notions.

Variable re_split_legal : str -> list str.
Variable re_match_legal : str -> bool.
Variable re_split_paragraphs : str -> list str.

(** Without a bound on the fuel: what the loop returns, if it returns, is
    made of windows no longer than [chunk_size]. *)
Lemma chunk_loop_within self text :
  valid self -> moderate_overlap self ->
  forall fuel start chunks ws,
    0 <= start ->
    Forall (fun c => len c <= chunk_size self) chunks ->
    chunk_loop fuel self text start chunks = Some ws ->
    Forall (fun c => len c <= chunk_size self) ws.
Proof.
  intros Hv Hm. pose proof Hv as [Ho Hoc].
  induction fuel as [|fuel IH]; intros start chunks ws Hs Hall; [discriminate|].
  cbn [chunk_loop]. destruct (Z.ltb_spec start (len text)) as [Hlt|_].
  - unfold loop_body. rewrite Z.geb_leb.
    destruct (Z.leb_spec (len text) (start + chunk_size self)) as [Htail|Hcut].
    + intros [= <-]. apply Forall_app. split; [assumption|].
      constructor; [|constructor].
      rewrite slice_from_inner by lia. unfold len in *. rewrite length_skipn. lia.
    + pose proof (window_end_range self text start Hv Hm Hs ltac:(lia)) as He.
      apply IH; [lia|]. apply Forall_app. split; [assumption|].
      constructor; [|constructor]. rewrite len_slice_inner; lia.
  - now intros [= <-].
Qed.

Lemma general_within fuel self text chunks :
  valid self -> moderate_overlap self ->
  _chunk_general_text fuel self text = Some chunks ->
  Forall (fun c => len c <= chunk_size self) chunks.
Proof.
  intros Hv Hm. unfold _chunk_general_text.
  destruct (Z.leb_spec (len text) (chunk_size self)) as [Hshort|_].
  - intros [= <-]. constructor; [assumption | constructor].
  - destruct (chunk_loop fuel self text 0 []) as [ws|] eqn:E; [|discriminate].
    intros [= <-]. apply strip_nonblank_within.
    apply (chunk_loop_within self text Hv Hm fuel 0 [] ws); [lia | constructor | exact E].
Qed.

Lemma letter_paragraphs_within fuel self paragraphs :
  valid self -> moderate_overlap self ->
  forall chunks chunks',
    Forall (fun c => len c <= chunk_size self) chunks ->
    letter_paragraphs fuel self paragraphs chunks = Some chunks' ->
    Forall (fun c => len c <= chunk_size self) chunks'.
Proof.
  intros Hv Hm. induction paragraphs as [|p rest IH]; intros chunks chunks' Hall.
  - simpl. now intros [= <-].
  - cbn [letter_paragraphs].
    destruct (negb (truthy (strip p))); [now apply IH|].
    destruct (Z.gtb_spec (len (strip p)) (chunk_size self)) as [Hlong|Hshort].
    + destruct (_chunk_general_text fuel self (strip p)) as [sub|] eqn:Eg; [|discriminate].
      apply IH. apply Forall_app. split; [assumption|].
      now apply (general_within fuel self (strip p)).
    + apply IH. apply Forall_app. split; [assumption|].
      constructor; [assumption | constructor].
Qed.

Lemma letter_pages_within fuel self pages :
  valid self -> moderate_overlap self ->
  forall chunks chunks',
    Forall (fun c => len c <= chunk_size self) chunks ->
    letter_pages re_split_paragraphs fuel self pages chunks = Some chunks' ->
    Forall (fun c => len c <= chunk_size self) chunks'.
Proof.
  intros Hv Hm. induction pages as [|page rest IH]; intros chunks chunks' Hall.
  - simpl. now intros [= <-].
  - cbn [letter_pages]. destruct (negb (truthy (strip page))); [now apply IH|].
    destruct (letter_paragraphs fuel self (re_split_paragraphs page) chunks)
      as [chunks1|] eqn:E; [|discriminate].
    apply IH. eapply letter_paragraphs_within; eassumption.
Qed.

(** X2.  With [0 <= chunk_overlap < chunk_size] and
    [chunk_overlap <= chunk_size // 2 + 1], every chunk that the general and
    the letter mode return is at most [chunk_size] characters long, for any
    amount of fuel.  (The statute mode keeps what follows a marker in one
    chunk until it is longer than twice [chunk_size].) *)
Theorem chunks_within_chunk_size fuel self text chunking_mode chunks :
  valid self -> moderate_overlap self ->
  chunking_mode <> "statute"%string ->
  _apply_chunking_strategy re_split_legal re_match_legal re_split_paragraphs
                           fuel self text chunking_mode = Some chunks ->
  Forall (fun c => len c <= chunk_size self) chunks.
Proof.
  intros Hv Hm Hmode. unfold _apply_chunking_strategy.
  destruct (String.eqb_spec chunking_mode "statute"); [contradiction|].
  destruct (String.eqb chunking_mode "letter").
  - unfold _chunk_letter_text. apply letter_pages_within; [assumption..|constructor].
  - now apply general_within.
Qed.

(** A pass that does not move the cursor is repeated for ever. *)
Lemma stuck_pass self text start w :
  start < len text ->
  loop_body self text start = Cut w start ->
  forall fuel chunks, chunk_loop fuel self text start chunks = None.
Proof.
  intros Hlt Hbody. induction fuel as [|fuel IH]; intros chunks; [reflexivity|].
  cbn [chunk_loop]. destruct (Z.ltb_spec start (len text)); [|lia].
  rewrite Hbody. apply IH.
Qed.

(** X3.  Nothing checks [chunk_overlap < chunk_size]: when the two are
    equal (and not negative) and the first window of a text longer than
    [chunk_size] has no sentence break beyond its midpoint, general
    chunking does not return, whatever the fuel. *)
Theorem overlap_equal_to_size_never_returns self text :
  0 <= chunk_size self ->
  chunk_overlap self = chunk_size self ->
  chunk_size self < len text ->
  best_break self text 0 <= chunk_size self / 2 ->
  forall fuel, _chunk_general_text fuel self text = None.
Proof.
  intros Hc Heq Hlong Hbreak fuel. unfold _chunk_general_text.
  destruct (Z.leb_spec (len text) (chunk_size self)); [lia|].
  rewrite (stuck_pass self text 0 (slice text 0 (chunk_size self))); [reflexivity|lia|].
  unfold loop_body, window_end. rewrite Z.geb_leb, Z.gtb_ltb.
  destruct (Z.leb_spec (len text) (0 + chunk_size self)); [lia|].
  destruct (Z.ltb_spec (0 + chunk_size self / 2) (best_break self text 0)); [lia|].
  rewrite Heq. f_equal. lia.
Qed.

End ChunkLengths.

Section ChunkLengthsWitnesses.
Import Py DocumentProcessor Spec.

Lemma chunks_within_chunk_size_witness :
  Forall (fun c => len c <= 10)
         [s "One. Two s"; s "sentences"; s "es here."; s "next page"].
Proof.
  apply (chunks_within_chunk_size (fun t => [t]) (fun _ => false) (fun t => [t])
           30 (mk 10 2) (s "  One. Two sentences here.  --- Page next page  ") "letter").
  - split; simpl; lia.
  - apply Z.leb_le; reflexivity.
  - discriminate.
  - reflexivity.
Defined.

Lemma overlap_equal_to_size_never_returns_witness :
  _chunk_general_text 1000 (mk 5 5) (s "abcdefgh") = None.
Proof.
  apply (overlap_equal_to_size_never_returns (mk 5 5) (s "abcdefgh")).
  - simpl; lia.
  - reflexivity.
  - unfold len; simpl; lia.
  - apply Z.leb_le; reflexivity.
Defined.

(** X4.  The window-relative [best_break] is compared with the absolute
    [start + chunk_size // 2]: a window whose start is at least
    [chunk_size - 1 - chunk_size // 2] is always cut at the hard boundary,
    wherever its sentence breaks are. *)
Theorem window_after_half_cut_at_boundary self text start :
  0 <= start -> 0 <= chunk_size self -> start + chunk_size self < len text ->
  chunk_size self - 1 <= start + chunk_size self / 2 ->
  loop_body self text start
  = Cut (slice text start (start + chunk_size self))
        (start + chunk_size self - chunk_overlap self).
Proof.
  intros Hs Hc Hl Hhalf. unfold loop_body. rewrite Z.geb_leb.
  destruct (Z.leb_spec (len text) (start + chunk_size self)); [lia|].
  now rewrite later_windows_ignore_breaks by lia.
Qed.

Lemma window_after_half_cut_at_boundary_witness :
  loop_body (mk 10 0) (s "aaaaaaaaaabbbbbbb.ccdddd") 10
  = Cut (slice (s "aaaaaaaaaabbbbbbb.ccdddd") 10 (10 + 10)) (10 + 10 - 0).
Proof.
  apply (window_after_half_cut_at_boundary (mk 10 0) (s "aaaaaaaaaabbbbbbb.ccdddd") 10).
  - lia.
  - simpl; lia.
  - unfold len; simpl; lia.
  - apply Z.leb_le; reflexivity.
Defined.

End ChunkLengthsWitnesses.

(** ** Ingestion *)

Section Metadata.
Import Py DocumentProcessor Spec.

Lemma dict_get_set_eq {V} (d : list (string * V)) k v :
  dict_get (dict_set d k v) k = Some v.
Proof.
  induction d as [|[k0 v0] d IH]; simpl.
  - now rewrite String.eqb_refl.
  - destruct (String.eqb_spec k0 k) as [->|Hne]; simpl.
    + now rewrite String.eqb_refl.
    + destruct (String.eqb_spec k0 k); [contradiction | exact IH].
Qed.

Lemma dict_get_none_not_in {V} (e : list (string * V)) k :
  ~ In k (map fst e) -> dict_get e k = None.
Proof.
  induction e as [|[k0 v0] e IH]; simpl; [reflexivity|]. intros H.
  destruct (String.eqb_spec k0 k) as [->|_]; [tauto|]. apply IH. tauto.
Qed.

(** Lookup after [{**d, **e}]: the item of [e] if there is one, else the
    item of [d]. *)
Lemma dict_get_update {V} (e : list (string * V)) : forall d k,
  List.NoDup (map fst e) ->
  dict_get (dict_update d e) k
  = match dict_get e k with Some v => Some v | None => dict_get d k end.
Proof.
  unfold dict_update.
  induction e as [|[k0 v0] e IH]; intros d k Hnd; [reflexivity|].
  cbn [fold_left fst snd map] in *. apply List.NoDup_cons_iff in Hnd as [Hin Hnd].
  rewrite IH by assumption. cbn [dict_get].
  destruct (String.eqb_spec k0 k) as [->|Hne].
  - rewrite (dict_get_none_not_in e k Hin). apply dict_get_set_eq.
  - now rewrite dict_get_set_ne.
Qed.

Variable re_split_legal : str -> list str.
Variable re_match_legal : str -> bool.
Variable re_split_paragraphs : str -> list str.
Variable md5_hexdigest : string -> string.

Lemma txt_documents_nth file_path total extra clock chunks : forall i k doc,
  nth_error (txt_documents md5_hexdigest file_path total extra clock i chunks) k = Some doc ->
  exists chunk,
    nth_error chunks k = Some chunk
    /\ content doc = chunk
    /\ metadata doc
       = dict_update
           [("source_file", VStr (name file_path)); ("source_type", VStr "txt");
            ("chunk_index", VInt (Z.of_nat (i + k))); ("total_chunks", VInt total);
            ("processed_at", VStr (clock (i + k)%nat))]%string
           extra.
Proof.
  induction chunks as [|c chunks IH]; intros i k doc; [now destruct k|].
  destruct k as [|k]; simpl.
  - intros [= <-]. exists c. rewrite Nat.add_0_r. now repeat split.
  - intros H. apply IH in H. destruct H as (chunk & H1 & H2 & H3).
    exists chunk. replace (i + S k)%nat with (S i + k)%nat by lia. now repeat split.
Qed.

Lemma txt_documents_content file_path total extra clock chunks : forall i,
  map content (txt_documents md5_hexdigest file_path total extra clock i chunks) = chunks.
Proof.
  induction chunks as [|c chunks IH]; intros i; [reflexivity|].
  simpl. now rewrite IH.
Qed.

(** X5.  In every document of [_process_txt] the caller's metadata win
    over the generated fields: a key of [extra] has the caller's value,
    also when it is ['source_file'] or ['chunk_index']; without such keys,
    the [k]-th document has ['chunk_index'] [k], ['total_chunks'] the
    number of documents, and the chunk number [k] as content. *)
Theorem txt_metadata_caller_wins fuel self file_path full_text chunking_mode
        extra clock docs k doc :
  List.NoDup (map fst extra) ->
  _process_txt re_split_legal re_match_legal re_split_paragraphs md5_hexdigest
               fuel self file_path (Some full_text) chunking_mode extra clock = Some docs ->
  nth_error docs k = Some doc ->
  (forall key v, dict_get extra key = Some v -> dict_get (metadata doc) key = Some v)
  /\ (dict_get extra "chunk_index" = None ->
      dict_get (metadata doc) "chunk_index" = Some (VInt (Z.of_nat k)))
  /\ (dict_get extra "total_chunks" = None ->
      dict_get (metadata doc) "total_chunks" = Some (VInt (len docs)))
  /\ (dict_get extra "source_file" = None ->
      dict_get (metadata doc) "source_file" = Some (VStr (name file_path)))
  /\ _apply_chunking_strategy re_split_legal re_match_legal re_split_paragraphs
                              fuel self full_text chunking_mode
     = Some (map content docs).
Proof.
  intros Hnd. unfold _process_txt.
  destruct (_apply_chunking_strategy _ _ _ fuel self full_text chunking_mode)
    as [chunks|]; [|discriminate].
  intros [= <-] Hk.
  destruct (txt_documents_nth _ _ _ _ _ _ _ _ Hk) as (chunk & _ & _ & Hm).
  rewrite Hm. unfold len. rewrite txt_documents_length.
  repeat split.
  - intros key v Hv. now rewrite dict_get_update, Hv.
  - intros Hn. now rewrite dict_get_update, Hn.
  - intros Hn. now rewrite dict_get_update, Hn.
  - intros Hn. now rewrite dict_get_update, Hn.
  - now rewrite txt_documents_content.
Qed.

End Metadata.

Section MetadataWitness.
Import Py DocumentProcessor Spec.

Lemma txt_metadata_caller_wins_witness :
  let doc :=
    {| id := "a.txt_0"; content := s "hello";
       metadata :=
         [("source_file", VStr "renamed.txt"); ("source_type", VStr "txt");
          ("chunk_index", VInt 0); ("total_chunks", VInt 1);
          ("processed_at", VStr "2024-01-01")]%string |} in
  (forall key v, dict_get [("source_file"%string, VStr "renamed.txt")] key = Some v ->
                 dict_get (metadata doc) key = Some v)
  /\ (dict_get [("source_file"%string, VStr "renamed.txt")] "chunk_index" = None ->
      dict_get (metadata doc) "chunk_index" = Some (VInt (Z.of_nat 0)))
  /\ (dict_get [("source_file"%string, VStr "renamed.txt")] "total_chunks" = None ->
      dict_get (metadata doc) "total_chunks" = Some (VInt (len [doc])))
  /\ (dict_get [("source_file"%string, VStr "renamed.txt")] "source_file" = None ->
      dict_get (metadata doc) "source_file"
      = Some (VStr (name {| parent := "/in"; name := "a.txt" |})))
  /\ _apply_chunking_strategy (fun t => [t]) (fun _ => false) (fun t => [t])
                              10 (mk 1000 200) (s "hello") "general"
     = Some (map content [doc]).
Proof.
  cbv zeta.
  apply (txt_metadata_caller_wins (fun t => [t]) (fun _ => false) (fun t => [t]) (fun x => x)
           10 (mk 1000 200) {| parent := "/in"; name := "a.txt" |} (s "hello") "general"
           [("source_file"%string, VStr "renamed.txt")] (fun _ => "2024-01-01"%string)
           _ 0%nat).
  - repeat constructor. simpl. tauto.
  - reflexivity.
  - reflexivity.
Defined.

End MetadataWitness.

Section DistinctIds.
Import Py DocumentProcessor Spec.

Variable re_split_legal : str -> list str.
Variable re_match_legal : str -> bool.
Variable re_split_paragraphs : str -> list str.
Variable md5_hexdigest : string -> string.





(** X7.  [_process_csv] makes one document per row whose content cell,
    as text, is not blank, in row order, with that text as content; a
    missing (NaN) content cell is the text ["nan"], which is not blank, so
    such a row is ingested with the content ["nan"]. *)
Theorem csv_documents_are_nonblank_cells file_path df extra clock content_col cols :
  columns df = content_col :: cols -> content_col <> ""%string ->
  map content (_process_csv md5_hexdigest file_path (Some df) extra clock)
  = List.filter (fun c => truthy (strip c))
                (map (fun r => str_of_cell (hd None (snd r))) (rows df))
  /\ forall index cells,
      In (index, None :: cells) (rows df) ->
      exists doc, In doc (_process_csv md5_hexdigest file_path (Some df) extra clock)
                  /\ content doc = s "nan"
                  /\ id doc = id_of md5_hexdigest (name file_path) (str_of_int index).
Proof.
  intros Hc Hne. unfold _process_csv. rewrite Hc.
  destruct (String.eqb_spec content_col ""); [contradiction|].
  generalize 0%nat. induction (rows df) as [|[index cells] rs IH]; intros k.
  - split; [reflexivity | intros ? ? []].
  - destruct (IH k) as [IH1 IH2]. destruct (IH (S k)) as [IH1' IH2']. 
    cbn [row_documents map List.filter snd].
    destruct (truthy (strip (str_of_cell (hd None cells)))) eqn:Et; cbn [negb].
    + split; [simpl; now rewrite IH1'|].
      intros i cs [E|Hin].
      * injection E as -> ->. eexists. split; [now left|]. now split.
      * destruct (IH2' i cs Hin) as (doc & Hd & H). exists doc. split; [now right | exact H].
    + split; [assumption|].
      intros i cs [E|Hin]; [injection E as -> ->; discriminate Et|]. now apply (IH2 i cs).
Qed.

End DistinctIds.

Section DistinctIdsWitness.
Import Py DocumentProcessor Spec.


Lemma csv_documents_are_nonblank_cells_witness :
  let df := {| columns := ["text"; "note"]%string;
               rows := [(0, [Some (s "one"); None]); (1, [Some (s "  "); None]);
                        (2, [None; Some (s "x")])] |} in
  let docs := _process_csv (fun x => x) {| parent := "/in"; name := "a.csv" |}
                           (Some df) [] (fun _ => "2024-01-01"%string) in
  map content docs
  = List.filter (fun c => truthy (strip c))
                (map (fun r => str_of_cell (hd None (snd r))) (rows df))
  /\ forall index cells,
      In (index, None :: cells) (rows df) ->
      exists doc, In doc docs /\ content doc = s "nan"
                  /\ id doc = id_of (fun x => x) "a.csv" (str_of_int index).
Proof.
  cbv zeta.
  apply (csv_documents_are_nonblank_cells (fun x => x) {| parent := "/in"; name := "a.csv" |}
           {| columns := ["text"; "note"]%string;
              rows := [(0, [Some (s "one"); None]); (1, [Some (s "  "); None]);
                       (2, [None; Some (s "x")])] |}
           [] (fun _ => "2024-01-01"%string) "text" ["note"]%string).
  - reflexivity.
  - discriminate.
Defined.

End DistinctIdsWitness.

Section Files.
Import Py DocumentProcessor FileProcessing Spec.

Variable re_split_legal : str -> list str.
Variable re_match_legal : str -> bool.
Variable re_split_paragraphs : str -> list str.
Variable md5_hexdigest : string -> string.
Variable round2 : Q -> Q.
Variable format1 : Q -> string.

(** X8.  [process_file] makes documents only of the files whose extension,
    in lower case, is one that [get_supported_extensions] lists: for any
    other file name (no extension included) it returns no documents,
    whatever can be read from the file. *)
Theorem process_file_unsupported_extension fuel self file_path rd chunking_mode extra clock :
  str_in (lower (suffix file_path)) get_supported_extensions = false ->
  process_file re_split_legal re_match_legal re_split_paragraphs md5_hexdigest
               fuel self file_path rd chunking_mode extra clock = Some [].
Proof.
  unfold process_file, get_supported_extensions, str_in. cbn [existsb].
  intros H. repeat (apply orb_false_iff in H; destruct H as [? H]).
  repeat match goal with E : String.eqb _ _ = false |- _ => rewrite E; clear E end.
  reflexivity.
Qed.

Lemma size_within_limit (file_size : Z) :
  Qle_bool (inject_Z file_size / inject_Z (1024 * 1024)) 100 = true
  <-> file_size <= 104857600.
Proof.
  rewrite Qle_bool_iff. unfold Qle, Qdiv, Qmult, Qinv, inject_Z. simpl. lia.
Qed.

(** X9.  [validate_file] accepts a file exactly when it reports no error,
    and exactly when the file exists, its extension in lower case is a
    supported one and its size is at most 100 * 1024 * 1024 bytes; the
    extension it reports is the lower-case suffix. *)
Theorem validate_file_accepts file_path fs :
  let v := validate_file round2 format1 file_path fs in
  (FileProcessing.valid v = true <-> error v = None)
  /\ (FileProcessing.valid v = true
      <-> exists_ fs = Ok true
          /\ str_in (lower (suffix file_path)) get_supported_extensions = true
          /\ exists file_size, st_size fs = Ok file_size /\ file_size <= 104857600)
  /\ extension v = lower (suffix file_path).
Proof.
  cbv zeta. unfold validate_file.
  destruct (exists_ fs) as [[|]|e]; cbn [FileProcessing.valid error extension].
  - destruct (str_in (lower (suffix file_path)) get_supported_extensions);
      cbn [negb FileProcessing.valid error extension].
    + destruct (st_size fs) as [file_size|e]; cbn [FileProcessing.valid error extension].
      * destruct (Qle_bool _ 100) eqn:E; cbn [FileProcessing.valid error extension].
        -- apply size_within_limit in E. repeat split; trivial. now exists file_size.
        -- repeat split; try discriminate.
           intros (_ & _ & size & [= <-] & Hs).
           apply size_within_limit in Hs. congruence.
      * repeat split; try discriminate. now intros (_ & _ & size & ? & _).
    + repeat split; try discriminate. now intros (_ & ? & _).
  - repeat split; try discriminate. now intros (? & _).
  - repeat split; try discriminate. now intros (? & _).
Qed.

End Files.

Section FilesWitness.
Import Py DocumentProcessor FileProcessing Spec.

Lemma process_file_unsupported_extension_witness :
  process_file (fun t => [t]) (fun _ => false) (fun t => [t]) (fun x => x)
               10 (mk 1000 200) {| parent := "/in"; name := "notes.MD" |}
               {| pdf_pages := None; docx_paragraphs := None;
                  txt_content := Some (s "hello"); csv_frame := None;
                  excel_frames := None |}
               "general" [] (fun _ => "2024-01-01"%string)
  = Some [].
Proof.
  apply process_file_unsupported_extension. reflexivity.
Defined.

End FilesWitness.

(** ** The database manager: errors and the audit log *)

Section Containment.
Import Py DatabaseManager DatabaseStore Spec Notions.

Lemma appends_refl st : appends st st.
Proof.
  split; [|now split]. exists []. rewrite app_nil_r. split; [reflexivity | constructor].
Qed.

Lemma appends_same st st' :
  audit st' = audit st -> audit_writable st' = audit_writable st -> now st' = now st ->
  appends st st'.
Proof.
  intros Ea Ew En. split; [|now split].
  exists []. rewrite app_nil_r. split; [assumption | constructor].
Qed.

Lemma appends_trans st1 st2 st3 : appends st1 st2 -> appends st2 st3 -> appends st1 st3.
Proof.
  intros [(n1 & E1 & F1) [W1 N1]] [(n2 & E2 & F2) [W2 N2]].
  split; [|split; congruence].
  exists (n1 ++ n2). rewrite E2, E1, app_assoc. split; [reflexivity|].
  apply Forall_app. split; [assumption|].
  eapply List.Forall_impl; [|exact F2]. intros r. now rewrite N1.
Qed.

Lemma appending_ret {A} (a : A) : appending (ret a).
Proof. intros st. apply appends_refl. Qed.

Lemma appending_lift {A} (r : res A) : appending (lift r).
Proof. intros st. apply appends_refl. Qed.

Lemma appending_bind {A B} (m : M A) (f : A -> M B) :
  appending m -> (forall a, appending (f a)) -> appending (bind m f).
Proof.
  intros Hm Hf st. unfold bind. specialize (Hm st).
  destruct (m st) as [[a|e] st1]; simpl in *; [|assumption].
  eapply appends_trans; [exact Hm | apply Hf].
Qed.

Lemma contained_try {A} (m : M A) (h : string -> M A) :
  appending m -> (forall e, contained (h e)) -> contained (try_except m h).
Proof.
  intros Hm Hh st. unfold try_except. specialize (Hm st).
  destruct (m st) as [[a|e] st1]; simpl in *.
  - split; [now exists a | assumption].
  - destruct (Hh e st1) as [Hok Happ]. split; [assumption|].
    eapply appends_trans; eassumption.
Qed.

Lemma contained_ret {A} (a : A) : contained (ret a).
Proof. intros st. split; [now exists a | apply appends_refl]. Qed.

Lemma contained_appending {A} (m : M A) : contained m -> appending m.
Proof. intros H st. apply H. Qed.



Lemma appending_log_audit a n d : appending (_log_audit a n d).
Proof.
  intros st. unfold _log_audit. destruct (audit_writable st) eqn:Ew; [|apply appends_refl].
  split; [|now split]. eexists. split; [reflexivity|]. now repeat constructor.
Qed.

Lemma contained_load_database name : contained (load_database name).
Proof.
  unfold load_database. apply contained_try; [|intros e; apply contained_ret].
  intros st. destruct (active_databases st !! name); [apply appends_refl|].
  destruct (disk st !! name) as [c|]; [|apply appends_refl].
  destruct (chroma c); [|apply appends_refl].
  eapply appends_trans; [|apply (appending_bind _ _ (appending_log_audit _ _ _));
                           intros; apply appending_ret].
  now apply appends_same.
Qed.


Lemma contained_query_one q n rs db : contained (query_one q n rs db).
Proof.
  unfold query_one. apply contained_try; [|intros e; apply contained_ret].
  apply appending_bind; [apply contained_appending, contained_load_database|].
  intros [h|]; [|apply appending_ret].
  apply appending_bind; [apply appending_lift|]. intros qr.
  apply appending_bind; [apply appending_lift|]. intros hits.
  apply appending_bind; [apply appending_log_audit|]. intros; apply appending_ret.
Qed.





End Containment.

(** ** The database manager: cache, deletion and query results *)

Section ManagerBehaviour.
Import Py DatabaseManager DatabaseStore Spec Notions.

(** X11.  Once [load_database] has returned a handle, the database is
    served from the cache: loading it again returns the same handle and
    changes nothing, so no second [LOAD_DATABASE] row is written. *)
Theorem load_database_is_cached name st h :
  fst (load_database name st) = Ok (Some h) ->
  load_database name (snd (load_database name st))
  = (Ok (Some h), snd (load_database name st)).
Proof.
  unfold load_database at 1 3 4, try_except, bind, ret, _log_audit.
  destruct (active_databases st !! name) as [h0|] eqn:Ea; simpl.
  - intros [= <-]. unfold load_database, try_except. now rewrite Ea.
  - destruct (disk st !! name) as [c|]; simpl; [|discriminate].
    destruct (chroma c) as [coll|]; simpl; [|discriminate].
    destruct (audit_writable st); simpl; [|discriminate].
    intros [= <-]. unfold load_database, try_except. simpl.
    now rewrite lookup_insert_eq.
Qed.

Lemma load_database_is_cached_witness :
  load_database "Alpha" (snd (load_database "Alpha" alpha_only))
  = (Ok (Some {| collection := one_hit_collection (s "alpha text") (1 # 2);
                 metadata := None |}),
     snd (load_database "Alpha" alpha_only)).
Proof.
  apply (load_database_is_cached "Alpha" alpha_only). reflexivity.
Defined.

Lemma delete_database_true_gone name st :
  fst (delete_database name st) = Ok true ->
  cannot_open (snd (delete_database name st)) name.
Proof.
  unfold delete_database, try_except, bind, rmtree, _log_audit, ret, cannot_open.
  destruct (active_databases st !! name) eqn:Ea; simpl;
    destruct (disk st !! name) as [c|] eqn:Ed; simpl;
    try destruct (removable c); simpl;
    destruct (audit_writable st); simpl; try discriminate; intros _;
    rewrite ?lookup_delete_eq, ?Ea, ?Ed; now split.
Qed.

(** X12.  After [delete_database name] has returned [True] the database is
    gone for the manager: [load_database name] returns [None] and changes
    nothing, and a later [query_databases] gives what it gives without
    that name, with no entry for it. *)
Theorem deleted_database_cannot_be_opened name st q names n :
  fst (delete_database name st) = Ok true ->
  let st' := snd (delete_database name st) in
  load_database name st' = (Ok None, st')
  /\ query_databases q names n st'
     = query_databases q (List.filter (fun db => negb (String.eqb db name)) names) n st'
  /\ forall rs, fst (query_databases q names n st') = Ok rs -> dict_get rs name = None.
Proof.
  intros Hdel. cbv zeta. pose proof (delete_database_true_gone name st Hdel) as Hc.
  split; [now apply load_database_cannot_open|].
  unfold query_databases.
  destruct (query_loop_skips name q n names [] _ Hc) as [E1 E2].
  split; [exact E1|]. intros rs Hrs.
  destruct (query_loop q n names [] (snd (delete_database name st))) as [r st2] eqn:Hrun.
  simpl in Hrs. subst r. now apply (E2 rs st2).
Qed.

Lemma deleted_database_cannot_be_opened_witness :
  let st' := snd (delete_database "Alpha" alpha_only) in
  load_database "Alpha" st' = (Ok None, st')
  /\ query_databases (s "q") ["Alpha"]%string 5 st'
     = query_databases (s "q")
         (List.filter (fun db => negb (String.eqb db "Alpha")) ["Alpha"]%string) 5 st'
  /\ forall rs, fst (query_databases (s "q") ["Alpha"]%string 5 st') = Ok rs ->
                dict_get rs "Alpha" = None.
Proof.
  apply (deleted_database_cannot_be_opened "Alpha" alpha_only (s "q") ["Alpha"]%string 5).
  reflexivity.
Defined.

(** *** The shape of the results *)

Lemma format_loop_spec db qr docs : forall i hits,
  format_loop db qr i docs = Ok hits ->
  map content hits = docs
  /\ Forall (fun h => source_database h = db) hits
  /\ (distances qr = [] -> Forall (fun h => distance h = None) hits).
Proof.
  induction docs as [|doc docs IH]; intros i hits; simpl.
  - intros [= <-]. repeat split; constructor.
  - unfold res_bind.
    destruct (index (metadatas qr) 0) as [m0|]; [|discriminate].
    destruct (if truthy m0 then index m0 i else Ok []) as [md|]; [|discriminate].
    destruct (distances qr) as [|d0 ds] eqn:Ed; cbn [truthy].
    + destruct (format_loop db qr (S i) docs) as [rest|] eqn:Er; [|discriminate].
      intros [= <-]. destruct (IH _ _ Er) as (H1 & H2 & H3).
      simpl. rewrite H1. repeat split; [now constructor|].
      intros _. constructor; [reflexivity | now apply H3].
    + destruct (index (d0 :: ds) 0) as [d0'|]; [|discriminate].
      destruct (index d0' i) as [d|]; [|discriminate].
      destruct (format_loop db qr (S i) docs) as [rest|] eqn:Er; [|discriminate].
      intros [= <-]. destruct (IH _ _ Er) as (H1 & H2 & _).
      simpl. rewrite H1. repeat split; [now constructor | discriminate].
Qed.

Lemma format_results_spec db qr hits :
  format_results db qr = Ok hits ->
  map content hits = hd [] (documents qr)
  /\ Forall (fun h => source_database h = db) hits
  /\ (distances qr = [] -> Forall (fun h => distance h = None) hits).
Proof.
  unfold format_results. destruct (documents qr) as [|docs0 rest]; simpl.
  - intros [= <-]. repeat split; constructor.
  - destruct docs0 as [|d ds]; cbn [truthy].
    + intros [= <-]. repeat split; constructor.
    + apply format_loop_spec.
Qed.

(** X13.  When [query_databases] formats what the collection answered, the
    hits are the documents of the first result list, in the order of the
    vector store, each tagged with the name of the database; without
    distances in the answer every hit has the distance [None]. *)
Theorem format_results_keeps_documents db qr hits :
  format_results db qr = Ok hits ->
  map content hits = hd [] (documents qr)
  /\ Forall (fun h => source_database h = db) hits
  /\ (distances qr = [] -> Forall (fun h => distance h = None) hits).
Proof. apply format_results_spec. Qed.

Lemma format_results_keeps_documents_witness :
  map content [alpha_hit] = hd [] [[s "alpha text"]]
  /\ Forall (fun h => source_database h = "Alpha"%string) [alpha_hit]
  /\ ([[1 # 2]] = [] -> Forall (fun h => distance h = None) [alpha_hit]).
Proof.
  apply (format_results_keeps_documents "Alpha"
           {| documents := [[s "alpha text"]]; metadatas := [[[]]]; distances := [[1 # 2]] |}
           [alpha_hit]).
  reflexivity.
Defined.

End ManagerBehaviour.

Section QueryResults.
Import Py DatabaseManager DatabaseStore Spec Notions.

Lemma dict_set_keys {V} (d : list (string * V)) k v :
  map fst (dict_set d k v) = map fst d
  \/ (~ In k (map fst d) /\ map fst (dict_set d k v) = map fst d ++ [k]).
Proof.
  induction d as [|[k0 v0] d IH]; simpl; [right; tauto|].
  destruct (String.eqb_spec k0 k) as [->|Hne]; [now left|].
  simpl. destruct IH as [E|[Hn E]]; [left; now f_equal|].
  right. split; [tauto | now f_equal].
Qed.

Lemma dict_set_NoDup {V} (d : list (string * V)) k v :
  List.NoDup (map fst d) -> List.NoDup (map fst (dict_set d k v)).
Proof.
  intros H. destruct (dict_set_keys d k v) as [->|[Hn ->]]; [assumption|].
  apply List.NoDup_app; [assumption | repeat constructor; tauto|].
  intros x Hx [<-|[]]. contradiction.
Qed.

Lemma dict_set_In {V} (d : list (string * V)) k v k' v' :
  In (k', v') (dict_set d k v) -> (k' = k /\ v' = v) \/ In (k', v') d.
Proof.
  induction d as [|[k0 v0] d IH]; simpl.
  - intros [[= <- <-]|[]]. now left.
  - destruct (String.eqb_spec k0 k) as [->|Hne]; simpl.
    + intros [[= <- <-]|H]; [now left | right; now right].
    + intros [H|H]; [right; now left|]. destruct (IH H); [now left | right; now right].
Qed.

(** What one pass of the loop does to the dictionary. *)
Lemma query_one_result q n rs db st rs' :
  fst (query_one q n rs db st) = Ok rs' ->
  rs' = rs
  \/ rs' = dict_set rs db []
  \/ exists hits, rs' = dict_set rs db hits
                  /\ Forall (fun h => source_database h = db) hits
                  /\ audit_writable st = true.
Proof.
  unfold query_one, try_except, bind, lift, ret.
  pose proof (contained_load_database db st) as [_ (_ & Hw & _)].
  destruct (load_database db st) as [[[h|]|e] st1]; simpl in *.
  - destruct (query (collection h) q n) as [qr|e]; simpl; [|intros [= <-]; tauto].
    destruct (format_results db qr) as [hits|e] eqn:Ef; simpl; [|intros [= <-]; tauto].
    unfold _log_audit. destruct (audit_writable st1) eqn:Ew; simpl; intros [= <-]; [|tauto].
    right. right. exists hits. split; [reflexivity|]. split; [|congruence].
    now apply format_results_spec in Ef.
  - intros [= <-]. tauto.
  - intros [= <-]. tauto.
Qed.

Lemma well_tagged_set (P : string -> Prop) rs db hits :
  well_tagged P rs -> P db -> Forall (fun h => source_database h = db) hits ->
  well_tagged P (dict_set rs db hits).
Proof.
  intros [Hnd Hin] Hp Hh. split; [now apply dict_set_NoDup|].
  intros k v H. apply dict_set_In in H. destruct H as [[-> ->]|H]; [now split | now apply Hin].
Qed.

Lemma query_loop_well_tagged (P : string -> Prop) q n names : forall rs st rs',
  (forall db, In db names -> P db) ->
  well_tagged P rs ->
  fst (query_loop q n names rs st) = Ok rs' ->
  well_tagged P rs'.
Proof.
  induction names as [|db rest IH]; intros rs st rs' Hp Hw; simpl.
  - now intros [= <-].
  - unfold bind. destruct (query_one q n rs db st) as [[rs1|e] st1] eqn:E; [|discriminate].
    apply IH; [intros; apply Hp; now right|].
    assert (fst (query_one q n rs db st) = Ok rs1) as E1 by now rewrite E.
    apply query_one_result in E1.
    destruct E1 as [->|[->|(hits & -> & Hh & _)]]; [assumption| |].
    + apply well_tagged_set; [assumption | apply Hp; now left | constructor].
    + apply well_tagged_set; [assumption | apply Hp; now left | assumption].
Qed.

(** X14.  In the dictionary that [query_databases] returns the keys are
    pairwise distinct, also when a name is requested twice, every key is a
    requested name, and every hit under a key carries that name as its
    ['source_database']. *)
Theorem query_databases_results_well_tagged q names n st rs :
  fst (query_databases q names n st) = Ok rs ->
  List.NoDup (map fst rs)
  /\ forall db hits,
      In (db, hits) rs ->
      In db names /\ Forall (fun h => source_database h = db) hits.
Proof.
  unfold query_databases. intros H.
  apply (query_loop_well_tagged (fun db => In db names) q n names [] st rs); trivial.
  split; [constructor | intros ? ? []].
Qed.

Lemma query_databases_results_well_tagged_witness :
  List.NoDup (map fst [("Alpha"%string, [alpha_hit])])
  /\ forall db hits,
      In (db, hits) [("Alpha"%string, [alpha_hit])] ->
      In db ["Alpha"; "Ghost"; "Alpha"]%string
      /\ Forall (fun h => source_database h = db) hits.
Proof.
  apply (query_databases_results_well_tagged (s "q") ["Alpha"; "Ghost"; "Alpha"]%string
           5 alpha_only).
  reflexivity.
Defined.

Lemma query_loop_unwritable q n names : forall rs st rs',
  audit_writable st = false ->
  Forall (fun kv => snd kv = []) rs ->
  fst (query_loop q n names rs st) = Ok rs' ->
  Forall (fun kv : string * list Hit => snd kv = []) rs'.
Proof.
  induction names as [|db rest IH]; intros rs st rs' Hw Hall; simpl.
  - now intros [= <-].
  - unfold bind. pose proof (contained_query_one q n rs db st) as [_ (_ & Hw1 & _)].
    destruct (query_one q n rs db st) as [[rs1|e] st1] eqn:E; [|discriminate].
    simpl in Hw1. apply IH; [congruence|].
    assert (fst (query_one q n rs db st) = Ok rs1) as E1 by now rewrite E.
    apply query_one_result in E1.
    destruct E1 as [->|[->|(hits & _ & _ & Hw')]]; [assumption| |congruence].
    apply List.Forall_forall. intros [k v] Hin. apply dict_set_In in Hin.
    rewrite List.Forall_forall in Hall.
    destruct Hin as [[_ ->]|Hin]; [reflexivity | now apply (Hall (k, v))].
Qed.

(** X15.  The results depend on the audit log: a database's hits are
    recorded only after its [QUERY_DATABASE] row has been written, so when
    [audit.csv] cannot be opened for appending, [query_databases] returns
    nothing but empty hit lists. *)
Theorem query_databases_needs_audit_log q names n st rs :
  audit_writable st = false ->
  fst (query_databases q names n st) = Ok rs ->
  Forall (fun kv => snd kv = []) rs.
Proof.
  intros Hw. unfold query_databases.
  apply query_loop_unwritable; [assumption | constructor].
Qed.

End QueryResults.

Lemma query_databases_needs_audit_log_witness :
  Forall (fun kv : string * list DatabaseManager.Hit => snd kv = [])
         [("Alpha"%string, [])].
Proof.
  apply (query_databases_needs_audit_log (Py.s "q") ["Alpha"]%string 5 Notions.alpha_unlogged);
    reflexivity.
Defined.

(** ** The database manager: creating and filling a database *)

Section Lifecycle.
Import Py DatabaseManager DatabaseStore Spec Notions.

Lemma list_databases_In st m :
  In m (list_databases st)
  <-> exists name c, disk st !! name = Some c /\ metadata_enc c = Some m /\ m <> [].
Proof.
  unfold list_databases. rewrite <- list_elem_of_In, list_elem_of_omap. split.
  - intros ([name c] & Hin & H). apply elem_of_map_to_list in Hin. simpl in H.
    destruct (metadata_enc c) as [m'|] eqn:Em; [|discriminate].
    destruct m' as [|x m']; [discriminate|]. injection H as <-.
    exists name, c. repeat split; [assumption.. | discriminate].
  - intros (name & c & Hd & Hm & Hne). exists (name, c).
    split; [now apply elem_of_map_to_list|]. simpl. rewrite Hm.
    destruct m; [contradiction | reflexivity].
Qed.

(** X16.  [create_database] is not atomic.  When ChromaDB raises after the
    directory has been made, [False] is returned and the directory stays:
    any later [create_database] of that name returns [False] and changes
    nothing, the name is not opened by [load_database], and
    [list_databases] lists what it listed before. *)
Theorem failed_create_blocks_the_name name description env e st :
  disk st !! name = None ->
  active_databases st !! name = None ->
  created env = Raise e ->
  let st' := snd (create_database name description env st) in
  fst (create_database name description env st) = Ok false
  /\ (forall description' env',
         create_database name description' env' st' = (Ok false, st'))
  /\ load_database name st' = (Ok None, st')
  /\ forall m, In m (list_databases st') <-> In m (list_databases st).
Proof.
  intros Hd Ha Hc. cbv zeta.
  assert (create_database name description env st
          = (Ok false,
             set_disk (<[name := {| chroma := Raise "Collection documents does not exist";
                                    metadata_enc := None;
                                    removable := new_removable env |}]> (disk st)) st))
    as ->.
  { unfold create_database, try_except, ret. now rewrite Hd, Hc. }
  cbn [fst snd]. split; [reflexivity|]. split; [|split].
  - intros description' env'. unfold create_database, try_except.
    cbn [disk set_disk]. now rewrite lookup_insert_eq.
  - apply load_database_cannot_open. unfold cannot_open.
    cbn [disk set_disk active_databases].
    rewrite lookup_insert_eq. split; [assumption | now eexists].
  - intros m. rewrite !list_databases_In. cbn [disk set_disk]. split.
    + intros (n & c & Hl & Hm & Hne). destruct (decide (n = name)) as [->|Hn].
      * rewrite lookup_insert_eq in Hl. injection Hl as <-. discriminate.
      * rewrite lookup_insert_ne in Hl by congruence. now exists n, c.
    + intros (n & c & Hl & Hm & Hne). exists n, c. split; [|now split].
      rewrite lookup_insert_ne; [assumption|]. intros <-. congruence.
Qed.

Lemma failed_create_blocks_the_name_witness :
  let env := {| created := Raise "disk full"; metadata_written := true;
                new_removable := true |} in
  let st' := snd (create_database "Beta" "second" env alpha_only) in
  fst (create_database "Beta" "second" env alpha_only) = Ok false
  /\ (forall description' env',
         create_database "Beta" description' env' st' = (Ok false, st'))
  /\ load_database "Beta" st' = (Ok None, st')
  /\ forall m, In m (list_databases st') <-> In m (list_databases alpha_only).
Proof.
  apply (failed_create_blocks_the_name "Beta" "second"
           {| created := Raise "disk full"; metadata_written := true;
              new_removable := true |} "disk full" alpha_only); reflexivity.
Defined.

(** X17.  When [create_database] returns [True] the name was free, the
    audit log has got a [CREATE_DATABASE] row as its last row, the new
    metadata (count ["0"]) are listed by [list_databases], and, the name
    not being in the cache, [load_database] opens the database with the
    collection just created and those metadata. *)
Theorem created_database_is_listed_and_opens name description env st :
  fst (create_database name description env st) = Ok true ->
  let st' := snd (create_database name description env st) in
  let metadata_ := new_metadata name description (now st) in
  disk st !! name = None
  /\ (exists r, audit st' = audit st ++ [r]
                /\ action r = CREATE_DATABASE /\ database_name r = name)
  /\ In metadata_ (list_databases st')
  /\ dict_get metadata_ "document_count" = Some "0"%string
  /\ (active_databases st !! name = None ->
      exists coll,
        created env = Ok coll
        /\ fst (load_database name st')
           = Ok (Some {| collection := coll; metadata := Some metadata_ |})).
Proof.
  cbv zeta. unfold create_database, try_except, bind, ret, _log_audit.
  destruct (disk st !! name) eqn:Hd; cbn [fst snd]; [discriminate|].
  destruct (created env) as [coll|]; cbn [fst snd]; [|discriminate].
  destruct (metadata_written env); cbn [fst snd]; [|discriminate].
  cbn [audit_writable set_disk].
  destruct (audit_writable st) eqn:Hw; cbn [fst snd]; [|discriminate].
  intros _. split; [reflexivity|]. split; [eexists; now repeat split|].
  split; [|split; [reflexivity|]].
  - apply list_databases_In. cbn [disk set_disk]. eexists name, _.
    rewrite lookup_insert_eq. split; [reflexivity|]. split; [reflexivity | discriminate].
  - intros Ha. exists coll. split; [reflexivity|].
    unfold load_database, try_except, bind, ret, _log_audit.
    cbn [active_databases disk set_disk]. rewrite Ha, lookup_insert_eq.
    cbn [chroma metadata_enc set_active audit_writable fst]. reflexivity.
Qed.

Lemma created_database_is_listed_and_opens_witness :
  let env := {| created := Ok (one_hit_collection (s "beta text") (1 # 4));
                metadata_written := true; new_removable := true |} in
  let st' := snd (create_database "Beta" "second" env alpha_only) in
  let metadata_ := new_metadata "Beta" "second" (now alpha_only) in
  disk alpha_only !! "Beta"%string = None
  /\ (exists r, audit st' = audit alpha_only ++ [r]
                /\ action r = CREATE_DATABASE /\ database_name r = "Beta"%string)
  /\ In metadata_ (list_databases st')
  /\ dict_get metadata_ "document_count" = Some "0"%string
  /\ (active_databases alpha_only !! "Beta"%string = None ->
      exists coll,
        created env = Ok coll
        /\ fst (load_database "Beta" st')
           = Ok (Some {| collection := coll; metadata := Some metadata_ |})).
Proof.
  apply (created_database_is_listed_and_opens "Beta" "second"
           {| created := Ok (one_hit_collection (s "beta text") (1 # 4));
              metadata_written := true; new_removable := true |} alpha_only).
  reflexivity.
Defined.

End Lifecycle.

Section Filling.
Import Py DatabaseManager DatabaseStore Spec Notions.

Lemma load_database_some_cached name st h :
  fst (load_database name st) = Ok (Some h) ->
  active_databases (snd (load_database name st)) !! name = Some h.
Proof.
  unfold load_database, try_except, bind, ret, _log_audit.
  destruct (active_databases st !! name) as [h0|] eqn:Ea; cbn [fst snd].
  - now intros [= <-].
  - destruct (disk st !! name) as [c|]; cbn [fst snd]; [|discriminate].
    destruct (chroma c) as [coll|]; cbn [fst snd]; [|discriminate].
    cbn [set_active audit_writable].
    destruct (audit_writable st); cbn [fst snd]; [|discriminate].
    intros [= <-]. cbn [active_databases]. apply lookup_insert_eq.
Qed.

Lemma update_metadata_silent name m ok st :
  fst (_update_database_metadata name m ok st) = Ok tt
  /\ active_databases (snd (_update_database_metadata name m ok st)) = active_databases st
  /\ audit (snd (_update_database_metadata name m ok st)) = audit st
  /\ audit_writable (snd (_update_database_metadata name m ok st)) = audit_writable st.
Proof.
  unfold _update_database_metadata. destruct ok; [|now repeat split].
  now destruct (disk st !! name).
Qed.

(** X18.  When [add_documents] returns [True], the handle in the cache
    holds the collection as it is after the insertion and metadata whose
    ['document_count'] is what [collection.count()] returned, and the last
    row of the audit log is the [ADD_DOCUMENTS] row of this database with
    the number of documents passed in. *)
Theorem add_documents_refreshes_count name documents env st :
  fst (add_documents name documents env st) = Ok true ->
  let st' := snd (add_documents name documents env st) in
  exists coll k h m r,
    after_add env = Ok coll /\ count env = Ok k
    /\ active_databases st' !! name = Some h
    /\ collection h = coll /\ metadata h = Some m
    /\ dict_get m "document_count" = Some (str_of_int k)
    /\ audit st' = audit (snd (load_database name st)) ++ [r]
    /\ action r = ADD_DOCUMENTS /\ database_name r = name
    /\ details r = ("Added " ++ str_of_int (len documents) ++ " documents")%string.
Proof.
  cbv zeta. unfold add_documents, try_except, bind, lift, ret.
  pose proof (load_database_some_cached name st) as Hc.
  destruct (load_database name st) as [[[db|]|e] st1]; cbn [fst snd] in *;
    [|discriminate..].
  specialize (Hc db eq_refl).
  destruct (after_add env) as [coll|]; cbn [fst snd]; [|discriminate].
  destruct (count env) as [k|]; cbn [fst snd]; [|discriminate].
  destruct (metadata db) as [m0|]; cbn [fst snd]; [|discriminate].
  set (m := dict_set m0 "document_count" (str_of_int k)).
  set (st3 := set_cached_metadata name m (set_collection name coll st1)).
  assert (active_databases st3 !! name = Some {| collection := coll; metadata := Some m |}
          /\ audit st3 = audit st1) as [Ha3 Hl3].
  { unfold st3, set_cached_metadata, set_collection. cbn [active_databases].
    rewrite Hc, lookup_insert_eq. cbn [set_active active_databases audit collection].
    split; [apply lookup_insert_eq | reflexivity]. }
  pose proof (update_metadata_silent name m (metadata_rewritten env) st3) as (E4 & Ha4 & Hl4 & _).
  destruct (_update_database_metadata name m (metadata_rewritten env) st3) as [r4 st4].
  cbn [fst snd] in *. subst r4. unfold _log_audit.
  destruct (audit_writable st4); cbn [fst snd]; [|discriminate].
  intros _. exists coll, k. eexists; eexists; eexists. cbn [active_databases audit].
  split; [reflexivity|]. split; [reflexivity|].
  split; [rewrite Ha4; exact Ha3|].
  split; [reflexivity|]. split; [reflexivity|].
  split; [apply dict_get_set_eq|].
  split; [now rewrite Hl4, Hl3|]. now repeat split.
Qed.

(** X19.  [add_documents] is not atomic either.  For a database that opens
    but whose metadata could not be read, the documents are inserted, the
    cache holds the collection with them, and yet [False] is returned and
    no [ADD_DOCUMENTS] row is written. *)
Theorem add_documents_without_metadata name documents env st h coll :
  fst (load_database name st) = Ok (Some h) ->
  metadata h = None ->
  after_add env = Ok coll ->
  let st' := snd (add_documents name documents env st) in
  fst (add_documents name documents env st) = Ok false
  /\ active_databases st' !! name = Some {| collection := coll; metadata := None |}
  /\ audit st' = audit (snd (load_database name st)).
Proof.
  intros Hl Hm Ha. cbv zeta. unfold add_documents, try_except, bind, lift, ret.
  pose proof (load_database_some_cached name st h Hl) as Hc.
  destruct (load_database name st) as [[[db|]|e] st1]; cbn [fst snd] in *;
    try discriminate.
  injection Hl as ->. rewrite Ha. cbn [fst snd].
  assert (active_databases (set_collection name coll st1) !! name
          = Some {| collection := coll; metadata := None |}) as Hs.
  { unfold set_collection. cbn [active_databases]. rewrite Hc, Hm. apply lookup_insert_eq. }
  destruct (count env) as [k|]; cbn [fst snd]; [rewrite Hm|]; cbn [fst snd];
    (split; [reflexivity|]); (split; [exact Hs | reflexivity]).
Qed.

End Filling.

Section FillingWitnesses.
Import Py DatabaseManager DatabaseStore Spec Notions.

Lemma add_documents_without_metadata_witness :
  let env := {| after_add := Ok (one_hit_collection (s "new text") (1 # 3));
                count := Ok 2; metadata_rewritten := true |} in
  let st' := snd (add_documents "Alpha" [] env alpha_only) in
  fst (add_documents "Alpha" [] env alpha_only) = Ok false
  /\ active_databases st' !! "Alpha"%string
     = Some {| collection := one_hit_collection (s "new text") (1 # 3); metadata := None |}
  /\ audit st' = audit (snd (load_database "Alpha" alpha_only)).
Proof.
  apply (add_documents_without_metadata "Alpha" []
           {| after_add := Ok (one_hit_collection (s "new text") (1 # 3));
              count := Ok 2; metadata_rewritten := true |}
           alpha_only
           {| collection := one_hit_collection (s "alpha text") (1 # 2); metadata := None |});
    reflexivity.
Defined.

End FillingWitnesses.

Lemma add_documents_refreshes_count_witness :
  let created_ := {| DatabaseStore.created :=
                       Py.Ok (Spec.one_hit_collection (Py.s "beta text") (1 # 4));
                     DatabaseStore.metadata_written := true;
                     DatabaseStore.new_removable := true |} in
  let st := snd (DatabaseStore.create_database "Beta" "second" created_ Spec.alpha_only) in
  let env := {| DatabaseStore.after_add :=
                  Py.Ok (Spec.one_hit_collection (Py.s "new text") (1 # 3));
                DatabaseStore.count := Py.Ok 3;
                DatabaseStore.metadata_rewritten := true |} in
  let st' := snd (DatabaseStore.add_documents "Beta" [] env st) in
  exists coll k h m r,
    DatabaseStore.after_add env = Py.Ok coll /\ DatabaseStore.count env = Py.Ok k
    /\ DatabaseManager.active_databases st' !! "Beta"%string = Some h
    /\ DatabaseManager.collection h = coll /\ DatabaseManager.metadata h = Some m
    /\ Py.dict_get m "document_count" = Some (Py.str_of_int k)
    /\ DatabaseManager.audit st'
       = DatabaseManager.audit (snd (DatabaseManager.load_database "Beta" st)) ++ [r]
    /\ DatabaseManager.action r = DatabaseManager.ADD_DOCUMENTS
    /\ DatabaseManager.database_name r = "Beta"%string
    /\ DatabaseManager.details r
       = ("Added " ++ Py.str_of_int (Py.len (@nil DocumentProcessor.Document))
                   ++ " documents")%string.
Proof.
  cbv zeta.
  apply (add_documents_refreshes_count "Beta" []
           {| DatabaseStore.after_add :=
                Py.Ok (Spec.one_hit_collection (Py.s "new text") (1 # 3));
              DatabaseStore.count := Py.Ok 3;
              DatabaseStore.metadata_rewritten := true |}).
  reflexivity.
Defined.

(** ** The retrieval coordinator: sources and models *)

Section Sources.
Import Py DatabaseManager RAGPipeline Spec Notions.

Variable str_format : str -> str -> str -> res str.

Lemma preview_length c : (len (preview c) <= 203)%Z.
Proof.
  unfold preview. destruct (Z.gtb_spec (len c) 200) as [Hlong|Hshort]; [|lia].
  rewrite len_app. rewrite slice_to_nonneg by lia.
  change (len (s "...")) with 3%Z.
  assert (len (firstn (Z.to_nat 200) c) <= 200)%Z
    by (unfold len; rewrite length_firstn; lia).
  lia.
Qed.

(** The answer of [query_single_database] is the handler's or the one for
    no documents, both without sources, or it has the hits of the database
    as sources. *)
Lemma query_single_database_cases self q db :
  let a := fst (query_single_database str_format self q db) in
  sources a = []
  \/ exists dm rs dm' hits,
      database_manager self = Some dm
      /\ query_databases q [db] (max_chunks_per_query self) dm = (Ok rs, dm')
      /\ dict_get rs db = Some hits
      /\ sources a = map source_info hits.
Proof.
  cbv zeta. unfold query_single_database.
  destruct (database_manager self) as [dm|]; [|now left].
  destruct (query_databases q [db] (max_chunks_per_query self) dm) as [[rs|e] dm'] eqn:Eq;
    [|now left].
  unfold single_body, res_bind.
  destruct (dict_get rs db) as [[|h hs]|] eqn:Eg.
  - destruct (the_model _); now left.
  - destruct (the_model _) as [m|]; [|now left].
    destruct (str_format _ _ _) as [prompt|]; [|now left].
    destruct (the_generator _) as [g|]; [|now left].
    destruct (run g prompt) as [replies|]; [|now left].
    right. now exists dm, rs, dm', (h :: hs).
  - destruct (the_model _); now left.
Qed.

Lemma dict_get_In {V} (d : list (string * V)) k v : dict_get d k = Some v -> In (k, v) d.
Proof.
  induction d as [|[k0 v0] d IH]; simpl; [discriminate|].
  destruct (String.eqb_spec k0 k) as [->|_]; [intros [= ->]; now left | right; auto].
Qed.

Lemma collect_In rs h : In h (collect rs) -> exists db hits, In (db, hits) rs /\ In h hits.
Proof.
  unfold collect. intros H. apply in_concat in H. destruct H as (hits & Hin & Hh).
  apply List.in_map_iff in Hin. destruct Hin as ([db hits'] & <- & Hin). now exists db, hits'.
Qed.

Lemma firstn_In {A} (l : list A) n x : In x (firstn n l) -> In x l.
Proof.
  revert n. induction l as [|y l IH]; intros [|n]; simpl; try tauto.
  intros [->|H]; [now left | right; eauto].
Qed.

(** X20.  Every source of an answer names a database that was asked: in a
    single-database answer the database of the query, in a multi-database
    answer one of the requested names; and no content preview is longer
    than 203 characters. *)
Theorem sources_name_requested_databases self q db names :
  Forall (fun src => database src = db /\ (len (content_preview src) <= 203)%Z)
         (sources (fst (query_single_database str_format self q db)))
  /\ Forall (fun src => In (database src) names /\ (len (content_preview src) <= 203)%Z)
            (sources (fst (query_multiple_databases str_format self q names))).
Proof.
  split.
  - destruct (query_single_database_cases self q db)
      as [->|(dm & rs & dm' & hits & _ & Hq & Hg & ->)]; [constructor|].
    assert (fst (query_databases q [db] (max_chunks_per_query self) dm) = Ok rs) as Hq'
        by now rewrite Hq.
    apply (query_loop_well_tagged (fun x => In x [db]) q _ [db] [] dm rs) in Hq';
      [|trivial|split; [constructor | intros ? ? []]].
    destruct Hq' as [_ Htag]. destruct (Htag db hits (dict_get_In _ _ _ Hg)) as [_ Hh].
    apply List.Forall_forall. intros src Hsrc. apply List.in_map_iff in Hsrc.
    destruct Hsrc as (h & <- & Hin). rewrite List.Forall_forall in Hh.
    split; [now apply Hh | apply preview_length].
  - destruct (query_multiple_databases_cases str_format self q names)
      as [[-> _]|(dm & rs & dm' & _ & Hq & Hb)]; [constructor|].
    apply multiple_body_spec in Hb.
    destruct Hb as [(_ & -> & _)|(_ & top & Hr & -> & _)]; [constructor|].
    assert (fst (query_databases q names (max_chunks_per_query self) dm) = Ok rs) as Hq'
        by now rewrite Hq.
    apply (query_loop_well_tagged (fun x => In x names) q _ names [] dm rs) in Hq';
      [|trivial|split; [constructor | intros ? ? []]].
    destruct Hq' as [_ Htag].
    unfold rerank, res_bind in Hr. cbn [max_chunks_per_query set_manager] in Hr.
    destruct (sort_by_distance (collect rs)) as [sorted|] eqn:Es; [|discriminate].
    injection Hr as <-. apply sort_by_distance_spec in Es. destruct Es as (Hperm & _).
    apply List.Forall_forall. intros src Hsrc. apply List.in_map_iff in Hsrc.
    destruct Hsrc as (h & <- & Hin). split; [|apply preview_length].
    unfold slice_to in Hin. apply firstn_In in Hin.
    apply (Permutation_in _ Hperm) in Hin. apply collect_In in Hin.
    destruct Hin as (k & hits & Hk & Hh). destruct (Htag k hits Hk) as [Hn Ht].
    rewrite List.Forall_forall in Ht. cbn [source_info database]. now rewrite (Ht h Hh).
Qed.

End Sources.

Section Models.
Import Py RAGPipeline ModelLoading Spec Notions.

Variable model_file_exists : string -> bool.
Variable new_generator : string -> Z -> res Generator.

Lemma find_model_spec models model_name cfg :
  find_model models model_name = Some cfg ->
  In cfg models /\ name (model cfg) = model_name.
Proof.
  induction models as [|m rest IH]; simpl; [discriminate|].
  destruct (String.eqb_spec (name (model m)) model_name) as [E|_].
  - intros [= <-]. split; [now left | assumption].
  - intros H. destruct (IH H). split; [now right | assumption].
Qed.

(** X21.  [load_model] changes the pipeline all or nothing: when it
    returns [False] (unknown name, missing file, or the generator cannot be
    made) the model and the generator loaded before stay in place; when it
    returns [True] the current model is the first configured model of that
    name, its file exists, and the generator is the one made for its file
    and context length (4096 when none is configured). *)
Theorem load_model_all_or_nothing models self model_name :
  let r := load_model model_file_exists new_generator models self model_name in
  (fst r = false -> snd r = self)
  /\ (fst r = true ->
      exists cfg g,
        find_model models model_name = Some cfg
        /\ In cfg models /\ name (model cfg) = model_name
        /\ model_file_exists (file_path cfg) = true
        /\ new_generator (file_path cfg)
                         (match context_length cfg with Some n => n | None => 4096 end)
           = Ok g
        /\ current_model (snd r) = Some (model cfg)
        /\ current_generator (snd r) = Some g
        /\ database_manager (snd r) = database_manager self
        /\ max_chunks_per_query (snd r) = max_chunks_per_query self).
Proof.
  cbv zeta. unfold load_model.
  destruct (find_model models model_name) as [cfg|] eqn:Ef; [|now split].
  destruct (model_file_exists (file_path cfg)) eqn:Ee; cbn [negb]; [|now split].
  destruct (new_generator _ _) as [g|] eqn:Eg; [|now split].
  split; [discriminate|]. intros _. exists cfg, g.
  destruct (find_model_spec _ _ _ Ef). now repeat split.
Qed.

End Models.

(** ** Prompt chains *)

Section Chains.
Import Py PromptWorkshop Spec Notions.

Variable jinja_render : str -> list (string * str) -> res str.

Lemma run_steps_app self g clock rest : forall i vars results,
  run_steps jinja_render self g clock i rest vars results
  = results ++ run_steps jinja_render self g clock i rest vars [].
Proof.
  induction rest as [|step rest IH]; intros i vars results; simpl;
    [now rewrite app_nil_r|].
  destruct (get_template self (step_template_id step)) as [template|]; [|apply IH].
  destruct g as [g|]; [|reflexivity].
  destruct (RAGPipeline.run g _) as [replies|e]; [|reflexivity].
  rewrite (IH _ _ (results ++ _)), (IH _ _ (_ :: _)). now rewrite app_assoc.
Qed.

Lemma about_step_shift self clock step rest i r :
  about_step self clock rest (S i) r -> about_step self clock (step :: rest) i r.
Proof.
  intros [Hr (step0 & Hn & Hrest)]. split; [cbn [length]; lia|].
  exists step0. split; [|exact Hrest].
  replace (Z.to_nat (step_number r - 1 - Z.of_nat i))
    with (S (Z.to_nat (step_number r - 1 - Z.of_nat (S i)))) by lia.
  exact Hn.
Qed.

Lemma about_step_first self clock step rest i r template :
  get_template self (step_template_id step) = Some template ->
  step_number r = Z.of_nat i + 1 ->
  result_step_name r = step_name step ->
  result_template_id r = step_template_id step ->
  timestamp r = clock i ->
  about_step self clock (step :: rest) i r.
Proof.
  intros Ht Hn Hname Hid Hclock. split; [cbn [length]; lia|]. exists step. rewrite Hn.
  replace (Z.to_nat (Z.of_nat i + 1 - 1 - Z.of_nat i)) with 0%nat by lia.
  replace (Z.to_nat (Z.of_nat i + 1 - 1)) with i by lia.
  repeat split; try assumption. congruence.
Qed.

(** What the steps from index [i] on add to the results. *)
Lemma run_steps_spec self g clock rest : forall i vars,
  let new := run_steps jinja_render self g clock i rest vars [] in
  (length new <= length rest)%nat
  /\ StronglySorted Z.lt (map step_number new)
  /\ Forall (about_step self clock rest i) new
  /\ (forall pre r post, new = pre ++ r :: post -> step_error r <> None -> post = [])
  /\ (forall pre r post,
         new = pre ++ r :: post ->
         match prompt r, answer r with
         | Some p, Some _ =>
             step_error r = None
             /\ exists template,
                 get_template self (result_template_id r) = Some template
                 /\ p = render jinja_render template (vars_after vars pre)
         | None, None => step_error r <> None
         | _, _ => False
         end).
Proof.
  induction rest as [|step rest IH]; intros i vars; cbv zeta.
  - simpl. repeat split; try constructor; try lia.
    + intros pre r post H. now destruct pre.
    + intros pre r post H. now destruct pre.
  - assert (forall new', Forall (about_step self clock rest (S i)) new' ->
                         Forall (about_step self clock (step :: rest) i) new') as Hshift.
    { intros new' H. eapply List.Forall_impl; [|exact H].
      intros r. apply about_step_shift. }
    assert (forall r : StepResult, step_error r <> None ->
              forall pre x post, [r] = pre ++ x :: post -> post = []) as Hone.
    { intros r _ pre x post H. destruct pre as [|r0 [|r1 pre]]; [|discriminate..].
      now injection H. }
    cbn [run_steps].
    destruct (get_template self (step_template_id step)) as [template|] eqn:Et.
    + destruct g as [g|].
      * destruct (RAGPipeline.run g _) as [replies|e].
        -- rewrite run_steps_app. cbn [app].
           match goal with
           | |- context [run_steps _ _ _ _ (S i) rest ?v []] =>
               destruct (IH (S i) v) as (Hlen & Hsorted & Hall & Herr & Hprompt);
               set (new' := run_steps jinja_render self (Some g) clock (S i) rest v []) in *
           end.
           split; [simpl; lia|]. split; [|split; [|split]].
           ++ cbn [map step_number]. constructor; [assumption|].
              apply List.Forall_forall. intros n Hn. apply List.in_map_iff in Hn.
              destruct Hn as (r & <- & Hr). rewrite List.Forall_forall in Hall.
              destruct (Hall r Hr) as [? _]. lia.
           ++ constructor; [|now apply Hshift].
              now apply (about_step_first self clock step rest i _ template).
           ++ intros pre r post H Hr. destruct pre as [|r0 pre].
              ** injection H as <- _. now contradiction Hr.
              ** injection H as _ H. now apply (Herr pre r post).
           ++ intros pre r post H. destruct pre as [|r0 pre].
              ** injection H as <- _. cbn [prompt answer step_error result_template_id].
                 split; [reflexivity|]. now exists template.
              ** injection H as <- H. specialize (Hprompt pre r post H).
                 unfold vars_after. cbn [fold_left]. exact Hprompt.
        -- cbn [app]. split; [simpl; lia|]. split; [repeat constructor|].
           split; [|split].
           ++ constructor; [|constructor].
              now apply (about_step_first self clock step rest i _ template).
           ++ intros pre r post H _. eapply Hone; [|exact H]. discriminate.
           ++ intros pre r post H. destruct pre as [|r0 [|r1 pre]]; [|discriminate..].
              injection H as <- _. cbn [prompt answer step_error]. discriminate.
      * cbn [app]. split; [simpl; lia|]. split; [repeat constructor|].
        split; [|split].
        -- constructor; [|constructor].
           now apply (about_step_first self clock step rest i _ template).
        -- intros pre r post H _. eapply Hone; [|exact H]. discriminate.
        -- intros pre r post H. destruct pre as [|r0 [|r1 pre]]; [|discriminate..].
           injection H as <- _. cbn [prompt answer step_error]. discriminate.
    + destruct (IH (S i) vars) as (Hlen & Hsorted & Hall & Herr & Hprompt).
      split; [simpl; lia|]. split; [assumption|]. split; [now apply Hshift|].
      split; assumption.
Qed.

(** X22.  A chain that [execute_chain] runs gives at most one result per
    step, with strictly increasing step numbers; each result is about the
    step of its number (name, template id, time read in that step), whose
    template exists: a step with an unknown template id leaves no result
    and the later steps keep their numbers; and a result with an error is
    the last one, since the chain stops there. *)
Theorem execute_chain_results_follow_steps self id vars pipeline clock results chain :
  execute_chain jinja_render self id vars pipeline clock = Ok results ->
  get_chain self id = Some chain ->
  (length results <= length (steps chain))%nat
  /\ StronglySorted Z.lt (map step_number results)
  /\ Forall (about_step self clock (steps chain) 0) results
  /\ (forall pre r post, results = pre ++ r :: post -> step_error r <> None -> post = []).
Proof.
  unfold execute_chain. intros H Hc. rewrite Hc in H.
  destruct pipeline as [p|]; [|discriminate].
  destruct (RAGPipeline.current_model p); [|discriminate].
  injection H as <-.
  destruct (run_steps_spec self (RAGPipeline.current_generator p) clock (steps chain) 0 vars)
    as (Hlen & Hsorted & Hall & Herr & _).
  now repeat split.
Qed.

(** X23.  In a chain, every result without error carries the prompt that
    its template renders from the variables as they are at that step: the
    initial variables in which each earlier result with an answer has set
    ['previous_answer'] and ['step_<n>_result'] to its answer.  A result
    has a prompt and an answer, or an error, never both. *)
Theorem execute_chain_threads_answers self id vars pipeline clock results pre r post :
  execute_chain jinja_render self id vars pipeline clock = Ok results ->
  results = pre ++ r :: post ->
  match prompt r, answer r with
  | Some p, Some _ =>
      step_error r = None
      /\ exists template,
          get_template self (result_template_id r) = Some template
          /\ p = render jinja_render template (vars_after vars pre)
  | None, None => step_error r <> None
  | _, _ => False
  end.
Proof.
  unfold execute_chain. intros H.
  destruct (get_chain self id) as [chain|]; [|discriminate].
  destruct pipeline as [p|]; [|discriminate].
  destruct (RAGPipeline.current_model p); [|discriminate].
  injection H as <-.
  destruct (run_steps_spec self (RAGPipeline.current_generator p) clock (steps chain) 0 vars)
    as (_ & _ & _ & _ & Hprompt).
  apply Hprompt.
Qed.

End Chains.

Section ChainsWitnesses.
Import Py PromptWorkshop Spec Notions.

Lemma execute_chain_results_follow_steps_witness :
  let chain :=
    {| chain_id := "c"; chain_name := "demo";
       steps := [{| step_template_id := "t1"; step_name := "Extract" |};
                 {| step_template_id := "missing"; step_name := "Gone" |};
                 {| step_template_id := "t2"; step_name := "Analyze" |}] |} in
  let results :=
    match execute_chain append_previous two_step_workshop "c" [("query"%string, s "q")]
                        (Some (echo_pipeline alpha_only)) (fun _ => "2024-01-01"%string) with
    | Ok rs => rs
    | Raise _ => []
    end in
  map step_number results = [1; 3]
  /\ (length results <= length (steps chain))%nat
  /\ StronglySorted Z.lt (map step_number results)
  /\ Forall (about_step two_step_workshop (fun _ => "2024-01-01"%string) (steps chain) 0)
            results
  /\ (forall pre r post, results = pre ++ r :: post -> step_error r <> None -> post = []).
Proof.
  cbv zeta. split; [reflexivity|].
  apply (execute_chain_results_follow_steps append_previous two_step_workshop "c"
           [("query"%string, s "q")] (Some (echo_pipeline alpha_only))
           (fun _ => "2024-01-01"%string)
           (match execute_chain append_previous two_step_workshop "c"
                    [("query"%string, s "q")]
                    (Some (echo_pipeline alpha_only)) (fun _ => "2024-01-01"%string) with
            | Ok rs => rs
            | Raise _ => []
            end)
           {| chain_id := "c"; chain_name := "demo";
              steps := [{| step_template_id := "t1"; step_name := "Extract" |};
                        {| step_template_id := "missing"; step_name := "Gone" |};
                        {| step_template_id := "t2"; step_name := "Analyze" |}] |});
    reflexivity.
Defined.

Lemma execute_chain_threads_answers_witness :
  let first :=
    {| step_number := 1; result_step_name := "Extract"; result_template_id := "t1";
       prompt := Some (s "extract"); answer := Some (s "extract"); step_error := None;
       timestamp := "2024-01-01" |} in
  let second :=
    {| step_number := 3; result_step_name := "Analyze"; result_template_id := "t2";
       prompt := Some (s "analyzeextract"); answer := Some (s "analyzeextract");
       step_error := None; timestamp := "2024-01-01" |} in
  step_error second = None
  /\ exists template,
      get_template two_step_workshop (result_template_id second) = Some template
      /\ s "analyzeextract"
         = render append_previous template (vars_after [("query"%string, s "q")] [first]).
Proof.
  intros first second.
  exact (execute_chain_threads_answers append_previous two_step_workshop "c"
           [("query"%string, s "q")] (Some (echo_pipeline alpha_only))
           (fun _ => "2024-01-01"%string) [first; second] [first] second []
           eq_refl eq_refl).
Defined.

End ChainsWitnesses.

Section ModelsWitness.
Import Py RAGPipeline ModelLoading Spec.

Lemma load_model_all_or_nothing_witness :
  let cfg := {| model := {| name := "tiny"; prompt_template := []; system_message := [] |};
                file_path := "tiny.gguf"; context_length := None |} in
  let r := load_model (fun _ => true) (fun _ _ => Ok {| run := fun p => Ok [p] |})
                      [cfg] (echo_pipeline alpha_only) "tiny" in
  exists cfg' g,
    find_model [cfg] "tiny" = Some cfg'
    /\ In cfg' [cfg] /\ name (model cfg') = "tiny"%string
    /\ (fun _ : string => true) (file_path cfg') = true
    /\ (fun (_ : string) (_ : Z) => Ok {| run := fun p => Ok [p] |})
         (file_path cfg') (match context_length cfg' with Some n => n | None => 4096 end)
       = Ok g
    /\ current_model (snd r) = Some (model cfg')
    /\ current_generator (snd r) = Some g
    /\ database_manager (snd r) = database_manager (echo_pipeline alpha_only)
    /\ max_chunks_per_query (snd r) = max_chunks_per_query (echo_pipeline alpha_only).
Proof.
  cbv zeta.
  apply (load_model_all_or_nothing (fun _ => true) (fun _ _ => Ok {| run := fun p => Ok [p] |})
           [{| model := {| name := "tiny"; prompt_template := []; system_message := [] |};
               file_path := "tiny.gguf"; context_length := None |}]
           (echo_pipeline alpha_only) "tiny").
  reflexivity.
Defined.

End ModelsWitness.
